(** * The Observatory: discovery engine

    A shallow embedding of [src/lib/discovery/knowledgeGraph.ts] (the static
    dependency graph and its resolver), [src/lib/discovery/store.ts] (the
    versioned, persisted discovery state) and [src/lib/discovery/events.ts]
    (the typed event channel), followed by the properties the specification
    states about them.

    Conventions of the embedding.
    - A TypeScript [string] is a [string]; a [string[]] is a [list string]
      in insertion order ([push] appends at the end).
    - A [number] that the store keeps (counters, schema version, epoch
      milliseconds, scores) is a [Z].
    - The module-level [state] of the store and everything the store does
      to the outside world ([localStorage.setItem], [window.dispatchEvent])
      are threaded explicitly: an operation maps a [store] to a result and a
      [store], and the outside effects are appended, in program order, to
      the [trace] of the store.
    - [new Date().toISOString()] and [Date.now()] are clock readings handed
      to the function that performs them. *)

From Stdlib Require Import List String ZArith Bool Lia.
Import ListNotations.
Open Scope string_scope.
Open Scope Z_scope.

(** ** Array helpers *)

Module JS.

(** [arr.includes(x)] on an array of strings. *)
Definition includes (arr : list string) (x : string) : bool :=
  existsb (String.eqb x) arr.

(** [arr.push(x)]: the array with [x] appended. *)
Definition push {A : Type} (arr : list A) (x : A) : list A := arr ++ [x].

(** A JavaScript number as [getProgress] can return it: an integer, or one
    of the two values that a division by an empty graph would produce. *)
Inductive number : Type :=
| Fin (z : Z)
| PosInf
| NaN.

(** [Math.round(p / q)] for integers [p >= 0] and [q > 0]: the nearest
    integer, a tie going up ([Math.round(x) = floor(x + 0.5)]). *)
Definition round_ratio (p q : Z) : Z := (2 * p + q) / (2 * q).

End JS.

(** ** knowledgeGraph.ts *)

Module KnowledgeGraph.

Inductive Category : Type :=
| star | constellation | game | terminal | loop | visit | time | meta.

Record KnowledgeNode : Type := mkNode {
  id : string;
  label : string;
  category : Category;
  description : string;
  requires : list string;
  unlocks : list string;
  hint : string
}.

(** The static knowledge graph definition. *)
Definition graphData : list KnowledgeNode := [
  mkNode "star:first-click" "First Light" star
    "You clicked your first star."
    [] ["star:pattern-hint"]
    "The stars are not just decoration.";
  mkNode "star:pattern-hint" "Pattern Recognition" star
    "A hint appeared about star patterns."
    ["star:first-click"] []
    "Some stars belong together.";
  mkNode "constellation:orion" "The Hunter" constellation
    "You formed the Orion constellation."
    ["star:first-click"] ["gate:orion-story"]
    "Three stars in a row...";
  mkNode "constellation:cassiopeia" "The Queen" constellation
    "You formed the Cassiopeia constellation."
    ["star:first-click"] ["gate:cassiopeia-story"]
    "Five stars make a W.";
  mkNode "constellation:lyra" "The Lyre" constellation
    "You formed the Lyra constellation."
    ["star:first-click"] ["gate:lyra-story"]
    "Music lives among the stars.";
  mkNode "game:star-catcher" "Star Catcher" game
    "You completed Star Catcher."
    [] ["gate:game-stories"]
    "Some words are more than text.";
  mkNode "game:signal-decoder" "Signal Decoder" game
    "You completed Signal Decoder."
    [] ["gate:game-stories"]
    "Listen to the signals.";
  mkNode "game:gravity-hop" "Gravity Hop" game
    "You completed Gravity Hop."
    [] ["gate:game-stories"]
    "What goes up...";
  mkNode "game:nebula-painter" "Nebula Painter" game
    "You completed Nebula Painter."
    [] ["gate:game-stories"]
    "Create something beautiful.";
  mkNode "terminal:first-command" "First Transmission" terminal
    "You typed your first terminal command."
    [] ["gate:terminal-stories"]
    "Up up down down...";
  mkNode "loop:first-reset" "Time Loop" loop
    "You experienced your first 22-minute loop."
    [] ["gate:loop-story"]
    "Time moves in circles here.";
  mkNode "visit:returning" "Return Visitor" visit
    "You came back."
    [] ["gate:returning-content"]
    "Come back tomorrow.";
  mkNode "meta:deep-game" "The Deep" meta
    "You found the deep game."
    ["star:first-click"; "terminal:first-command"; "game:star-catcher"]
    ["game:deep-complete"]
    "There is more beyond what you see.";
  mkNode "game:deep-complete" "Deep Explorer" game
    "You completed the deep game."
    ["meta:deep-game"] []
    "Finish what you started in the deep."
].

(** The resolver reads one module constant, [graphData.nodes]. The
    functions below take it as the section variable [nodes], so that the
    specification's small example graphs can be run through the same code;
    the program is the instance [nodes := graphData]. *)
Section Resolver.

Variable nodes : list KnowledgeNode.

(** Get all nodes in the knowledge graph. *)
Definition getNodes : list KnowledgeNode := nodes.

(** Get a specific node by ID ([Array.prototype.find]: the first match,
    [None] for [undefined]). *)
Definition getNode (nodeId : string) : option KnowledgeNode :=
  find (fun n => String.eqb (id n) nodeId) nodes.

(** Check if all requirements for a node are met. *)
Definition isUnlocked (nodeId : string) (discoveries : list string) : bool :=
  match getNode nodeId with
  | None => false
  | Some node => forallb (fun req => JS.includes discoveries req) (requires node)
  end.

(** Get all nodes that a discovery unlocks. *)
Definition getUnlockedBy (discoveryId : string) : list KnowledgeNode :=
  filter (fun n => JS.includes (requires n) discoveryId) nodes.

(** Get all discovered nodes. *)
Definition getDiscoveredNodes (discoveries : list string) : list KnowledgeNode :=
  filter (fun n => JS.includes discoveries (id n)) nodes.

(** Get all undiscovered but hintable nodes (requirements partially met). *)
Definition getHintableNodes (discoveries : list string) : list KnowledgeNode :=
  filter
    (fun n =>
       if JS.includes discoveries (id n) then false
       else (Nat.eqb (List.length (requires n)) 0
             || existsb (fun req => JS.includes discoveries req) (requires n)))
    nodes.

(** Get discovery progress as a percentage:
    [Math.round((discoveries.length / graphData.nodes.length) * 100)].
    The quotient is taken exactly here. With no node at all the division
    yields [NaN] (0/0) or [Infinity], which [Math.round] returns as is. *)
Definition getProgress (discoveries : list string) : JS.number :=
  let len := Z.of_nat (List.length discoveries) in
  let total := Z.of_nat (List.length nodes) in
  if total =? 0 then (if len =? 0 then JS.NaN else JS.PosInf)
  else JS.Fin (JS.round_ratio (len * 100) total).

End Resolver.

End KnowledgeGraph.

(** ** events.ts *)

Module Events.

(** [ObservatoryEventMap]: one constructor per topic, carrying the
    topic's payload. *)
Inductive event : Type :=
| discovery (id category label : string)
| constellation_complete (name : string) (stars : list string)
| game_complete (gameId : string) (score : Z)
| terminal_command (command output : string)
| visit (count : Z) (isFirstVisit : bool)
| time_change (isNight : bool) (hour : Z)
| loop_reset (loopCount : Z)
| audio_toggle (enabled : bool)
| state_change (discoveries : list string) (totalCount : nat).

End Events.

(** ** store.ts *)

Module Store.

Import JS.

Definition STORAGE_KEY : string := "observatory:state".
Definition SCHEMA_VERSION : Z := 1.

Record DiscoveryState : Type := mkState {
  version : Z;
  discoveries : list string;
  constellations : list string;
  gamesCompleted : list string;
  terminalCommands : list string;
  visitCount : Z;
  firstVisitDate : string;
  lastVisitDate : string;
  sessionStart : Z;
  loopCount : Z;
  audioEnabled : bool;
  totalClickedStars : Z
}.

(** One reading of the clock: [new Date().toISOString()] and [Date.now()]. *)
Record clock : Type := mkClock { iso : string; ms : Z }.

Definition createDefaultState (c : clock) : DiscoveryState :=
  {| version := SCHEMA_VERSION;
     discoveries := [];
     constellations := [];
     gamesCompleted := [];
     terminalCommands := [];
     visitCount := 0;
     firstVisitDate := iso c;
     lastVisitDate := iso c;
     sessionStart := ms c;
     loopCount := 0;
     audioEnabled := false;
     totalClickedStars := 0 |}.

(** *** Loosely typed records

    What [JSON.parse] returns, and what [migrate] receives as
    [Record<string, unknown>]. An object is the list of its own
    properties; a number is one of the integers the store writes. *)
#[local] Set Warnings "-register-all".

Inductive value : Type :=
| JNull
| JBool (b : bool)
| JNum (n : Z)
| JStr (s : string)
| JArr (items : list value)
| JObj (fields : list (string * value)).

(** The item stored under [STORAGE_KEY], as [JSON.parse] sees it: a text
    that does not parse (the empty text included), or the parsed value. *)
Inductive item : Type :=
| Unparsable
| Parsed (v : value).

Fixpoint assoc (key : string) (fields : list (string * value)) : option value :=
  match fields with
  | [] => None
  | (k, v) :: rest => if String.eqb k key then Some v else assoc key rest
  end.

(** [raw.key] for the four keys the store reads from a parsed value that
    is not [null]: a primitive or an array has none of them ([None] is
    [undefined]). *)
Definition prop (raw : value) (key : string) : option value :=
  match raw with
  | JObj fields => assoc key fields
  | _ => None
  end.

(** [obj.key = v] on an object: the property is overwritten in place, or
    added after the others. *)
Fixpoint assign (key : string) (v : value) (fields : list (string * value))
  : list (string * value) :=
  match fields with
  | [] => [(key, v)]
  | (k, old) :: rest =>
      if String.eqb k key then (k, v) :: rest else (k, old) :: assign key v rest
  end.

Definition setProp (obj : value) (key : string) (v : value) : value :=
  match obj with
  | JObj fields => JObj (assign key v fields)
  | _ => obj
  end.

(** [!!v] *)
Definition truthy (v : option value) : bool :=
  match v with
  | None => false
  | Some JNull => false
  | Some (JBool b) => b
  | Some (JNum n) => negb (n =? 0)
  | Some (JStr s) => negb (String.eqb s "")
  | Some (JArr _) => true
  | Some (JObj _) => true
  end.

(** The state as the object that [JSON.stringify] writes and that the
    migration fills in. *)
Definition encode (s : DiscoveryState) : value :=
  JObj [ ("version", JNum (version s));
         ("discoveries", JArr (map JStr (discoveries s)));
         ("constellations", JArr (map JStr (constellations s)));
         ("gamesCompleted", JArr (map JStr (gamesCompleted s)));
         ("terminalCommands", JArr (map JStr (terminalCommands s)));
         ("visitCount", JNum (visitCount s));
         ("firstVisitDate", JStr (firstVisitDate s));
         ("lastVisitDate", JStr (lastVisitDate s));
         ("sessionStart", JNum (sessionStart s));
         ("loopCount", JNum (loopCount s));
         ("audioEnabled", JBool (audioEnabled s));
         ("totalClickedStars", JNum (totalClickedStars s)) ].

Definition asNum (v : option value) : option Z :=
  match v with Some (JNum n) => Some n | _ => None end.

Definition asStr (v : option value) : option string :=
  match v with Some (JStr s) => Some s | _ => None end.

Definition asBool (v : option value) : option bool :=
  match v with Some (JBool b) => Some b | _ => None end.

Fixpoint strings (items : list value) : option (list string) :=
  match items with
  | [] => Some []
  | JStr s :: rest =>
      match strings rest with Some l => Some (s :: l) | None => None end
  | _ :: _ => None
  end.

Definition asStrings (v : option value) : option (list string) :=
  match v with Some (JArr items) => strings items | _ => None end.

(** Whether an object inhabits the [DiscoveryState] interface: every field
    of the schema is present with a value of its declared type. Properties
    outside the schema are not looked at, and the typed view does not carry
    them along. *)
Definition asState (obj : value) : option DiscoveryState :=
  match asNum (prop obj "version"), asStrings (prop obj "discoveries"),
        asStrings (prop obj "constellations"),
        asStrings (prop obj "gamesCompleted"),
        asStrings (prop obj "terminalCommands"),
        asNum (prop obj "visitCount") with
  | Some ver, Some ds, Some cs, Some gs, Some ts, Some vc =>
      match asStr (prop obj "firstVisitDate"), asStr (prop obj "lastVisitDate"),
            asNum (prop obj "sessionStart"), asNum (prop obj "loopCount"),
            asBool (prop obj "audioEnabled"),
            asNum (prop obj "totalClickedStars") with
      | Some fv, Some lv, Some ss, Some lc, Some ae, Some tc =>
          Some (mkState ver ds cs gs ts vc fv lv ss lc ae tc)
      | _, _, _, _, _, _ => None
      end
  | _, _, _, _, _, _ => None
  end.

(** What a function typed [DiscoveryState] really returns. TypeScript's
    types are erased: [parsed as unknown as DiscoveryState] and
    [state.discoveries = raw.discoveries] check nothing, so the object is
    a [DiscoveryState] only if it happens to have the shape. *)
Inductive loaded : Type :=
| Typed (s : DiscoveryState)
| Untyped (obj : value).

Definition cast (obj : value) : loaded :=
  match asState obj with
  | Some s => Typed s
  | None => Untyped obj
  end.

Section Host.

(** [v < 1] for a [v] that is a string, an array or an object goes
    through the engine's [ToPrimitive] and string-to-number conversion
    (["0"], [" "] and [[0]] are below one, ["abc"] and [{}] are not). That
    conversion belongs to the host, not to this repository: its outcome is
    a parameter. *)
Variable belowOneCoerced : value -> bool.

(** [v < 1] *)
Definition ltOne (v : option value) : bool :=
  match v with
  | None => false
  | Some JNull => true
  | Some (JBool b) => negb b
  | Some (JNum n) => n <? 1
  | Some x => belowOneCoerced x
  end.

(** [!raw.version || (raw.version as number) < 1] *)
Definition isVersion0 (raw : value) : bool :=
  negb (truthy (prop raw "version")) || ltOne (prop raw "version").

Definition migrate (c : clock) (raw : value) : loaded :=
  let state := encode (createDefaultState c) in
  (* Version 0 (no version field) -> Version 1 *)
  let state :=
    if isVersion0 raw then
      (* Copy over any fields that exist *)
      let state :=
        match prop raw "discoveries" with
        | Some (JArr items) => setProp state "discoveries" (JArr items)
        | _ => state
        end in
      let state :=
        match prop raw "visitCount" with
        | Some (JNum n) => setProp state "visitCount" (JNum n)
        | _ => state
        end in
      let state :=
        match prop raw "firstVisitDate" with
        | Some (JStr s) => setProp state "firstVisitDate" (JStr s)
        | _ => state
        end in
      state
    else state in
  let state := setProp state "version" (JNum SCHEMA_VERSION) in
  cast state.

(** [load]: [stored] is what [localStorage.getItem(STORAGE_KEY)] holds
    ([None] when the key is absent). An exception inside the [try] block (a
    text that does not parse, or [parsed.version] on [null]) yields the
    defaults. *)
Definition load (c : clock) (stored : option item) : loaded :=
  match stored with
  | None => Typed (createDefaultState c)
  | Some Unparsable => Typed (createDefaultState c)
  | Some (Parsed JNull) => Typed (createDefaultState c)
  | Some (Parsed parsed) =>
      match prop parsed "version" with
      | Some (JNum n) =>
          if n =? SCHEMA_VERSION then cast parsed else migrate c parsed
      | _ => migrate c parsed
      end
  end.

End Host.

(** *** The running store *)

(** What the store does to the outside world: [save] hands
    [JSON.stringify(state)] to [localStorage.setItem] (a failing write is
    swallowed by [save], so the caller sees no difference), and [emit]
    dispatches an event on [window]. The listeners of this repository only
    read the store ([getState], [discoveryCount]); none calls back into a
    recording operation. *)
Inductive effect : Type :=
| Saved (json : value)
| Emitted (e : Events.event).

(** The module-level [state] together with the effects performed so far. *)
Record store : Type := mkStore {
  state : DiscoveryState;
  trace : list effect
}.

(** An operation of the store: a result and the store it leaves. *)
Definition M (A : Type) : Type := store -> A * store.

Definition ret {A : Type} (a : A) : M A := fun w => (a, w).

Definition bind {A B : Type} (m : M A) (k : A -> M B) : M B :=
  fun w => let (a, w') := m w in k a w'.

Notation "x <- m ;; k" := (bind m (fun x => k))
  (at level 61, m at next level, right associativity).
Notation "m ;;; k" := (bind m (fun _ => k))
  (at level 61, right associativity).

Definition read : M DiscoveryState := fun w => (state w, w).

Definition write (s : DiscoveryState) : M unit :=
  fun w => (tt, mkStore s (trace w)).

Definition perform (e : effect) : M unit :=
  fun w => (tt, mkStore (state w) (push (trace w) e)).

Definition save : M unit :=
  s <- read ;; perform (Saved (encode s)).

Definition emit (e : Events.event) : M unit := perform (Emitted e).

(** Field updates of the record. *)
Definition setDiscoveries (l : list string) (s : DiscoveryState) : DiscoveryState :=
  mkState (version s) l (constellations s) (gamesCompleted s)
    (terminalCommands s) (visitCount s) (firstVisitDate s) (lastVisitDate s)
    (sessionStart s) (loopCount s) (audioEnabled s) (totalClickedStars s).

Definition setConstellations (l : list string) (s : DiscoveryState) : DiscoveryState :=
  mkState (version s) (discoveries s) l (gamesCompleted s)
    (terminalCommands s) (visitCount s) (firstVisitDate s) (lastVisitDate s)
    (sessionStart s) (loopCount s) (audioEnabled s) (totalClickedStars s).

Definition setGamesCompleted (l : list string) (s : DiscoveryState) : DiscoveryState :=
  mkState (version s) (discoveries s) (constellations s) l
    (terminalCommands s) (visitCount s) (firstVisitDate s) (lastVisitDate s)
    (sessionStart s) (loopCount s) (audioEnabled s) (totalClickedStars s).

Definition setTerminalCommands (l : list string) (s : DiscoveryState) : DiscoveryState :=
  mkState (version s) (discoveries s) (constellations s) (gamesCompleted s)
    l (visitCount s) (firstVisitDate s) (lastVisitDate s)
    (sessionStart s) (loopCount s) (audioEnabled s) (totalClickedStars s).

Definition setVisit (count : Z) (last : string) (start : Z) (s : DiscoveryState)
  : DiscoveryState :=
  mkState (version s) (discoveries s) (constellations s) (gamesCompleted s)
    (terminalCommands s) count (firstVisitDate s) last
    start (loopCount s) (audioEnabled s) (totalClickedStars s).

Definition setLoopCount (n : Z) (s : DiscoveryState) : DiscoveryState :=
  mkState (version s) (discoveries s) (constellations s) (gamesCompleted s)
    (terminalCommands s) (visitCount s) (firstVisitDate s) (lastVisitDate s)
    (sessionStart s) n (audioEnabled s) (totalClickedStars s).

Definition setAudioEnabled (b : bool) (s : DiscoveryState) : DiscoveryState :=
  mkState (version s) (discoveries s) (constellations s) (gamesCompleted s)
    (terminalCommands s) (visitCount s) (firstVisitDate s) (lastVisitDate s)
    (sessionStart s) (loopCount s) b (totalClickedStars s).

Definition setTotalClickedStars (n : Z) (s : DiscoveryState) : DiscoveryState :=
  mkState (version s) (discoveries s) (constellations s) (gamesCompleted s)
    (terminalCommands s) (visitCount s) (firstVisitDate s) (lastVisitDate s)
    (sessionStart s) (loopCount s) (audioEnabled s) n.

(** Get current state (read-only snapshot). *)
Definition getState : M DiscoveryState := read.

(** Record a new discovery. Returns true if it was new. *)
Definition addDiscovery (id category label : string) : M bool :=
  s <- read ;;
  if includes (discoveries s) id then ret false
  else
    write (setDiscoveries (push (discoveries s) id) s) ;;;
    save ;;;
    emit (Events.discovery id category label) ;;;
    s <- read ;;
    emit (Events.state_change (discoveries s) (List.length (discoveries s))) ;;;
    ret true.

(** Check if a discovery has been made. *)
Definition hasDiscovery (id : string) : M bool :=
  s <- read ;; ret (includes (discoveries s) id).

(** Get total discovery count. *)
Definition discoveryCount : M nat :=
  s <- read ;; ret (List.length (discoveries s)).

(** Record a completed constellation. *)
Definition addConstellation (name : string) (stars : list string) : M bool :=
  s <- read ;;
  if includes (constellations s) name then ret false
  else
    write (setConstellations (push (constellations s) name) s) ;;;
    save ;;;
    emit (Events.constellation_complete name stars) ;;;
    addDiscovery ("constellation:" ++ name) "constellation" ("Formed " ++ name) ;;;
    ret true.

(** Record a completed game. *)
Definition addGameComplete (gameId : string) (score : Z) : M bool :=
  s <- read ;;
  if includes (gamesCompleted s) gameId then ret false
  else
    write (setGamesCompleted (push (gamesCompleted s) gameId) s) ;;;
    save ;;;
    emit (Events.game_complete gameId score) ;;;
    addDiscovery ("game:" ++ gameId) "game" ("Completed " ++ gameId) ;;;
    ret true.

(** Record a terminal command. *)
Definition addTerminalCommand (command output : string) : M unit :=
  s <- read ;;
  (if negb (includes (terminalCommands s) command) then
     write (setTerminalCommands (push (terminalCommands s) command) s) ;;;
     save ;;;
     s <- read ;;
     if Nat.eqb (List.length (terminalCommands s)) 1 then
       addDiscovery "terminal:first-command" "terminal" "First terminal command" ;;;
       ret tt
     else ret tt
   else ret tt) ;;;
  emit (Events.terminal_command command output).

(** Increment star click counter. *)
Definition clickStar : M Z :=
  s <- read ;;
  write (setTotalClickedStars (totalClickedStars s + 1) s) ;;;
  save ;;;
  s <- read ;;
  (if totalClickedStars s =? 1 then
     addDiscovery "star:first-click" "star" "Clicked first star" ;;; ret tt
   else ret tt) ;;;
  s <- read ;;
  ret (totalClickedStars s).

(** Toggle audio. *)
Definition toggleAudio : M bool :=
  s <- read ;;
  write (setAudioEnabled (negb (audioEnabled s)) s) ;;;
  save ;;;
  s <- read ;;
  emit (Events.audio_toggle (audioEnabled s)) ;;;
  ret (audioEnabled s).

(** Increment loop counter (called every 22 minutes). *)
Definition incrementLoop : M Z :=
  s <- read ;;
  write (setLoopCount (loopCount s + 1) s) ;;;
  save ;;;
  s <- read ;;
  emit (Events.loop_reset (loopCount s)) ;;;
  (if loopCount s =? 1 then
     addDiscovery "loop:first-reset" "loop" "First time loop" ;;; ret tt
   else ret tt) ;;;
  s <- read ;;
  ret (loopCount s).

(** Check if enough discoveries for the deep game (need 10+). *)
Definition canAccessDeepGame : M bool :=
  s <- read ;; ret (Nat.leb 10 (List.length (discoveries s))).

(** Reset all state (for testing). *)
Definition resetState (c : clock) : M unit :=
  write (createDefaultState c) ;;; save.

(** *** Session start *)

(** The outcome of [init]: a running store, or, when [load] let through an
    object that does not inhabit [DiscoveryState], that object. *)
Inductive session : Type :=
| Live (w : store)
| IllTyped (obj : value).

Section Session.

Variable belowOneCoerced : value -> bool.

(** Initialize the store. Call once on page load. [atLoad] is the clock
    as [load] reads it, [atVisit] the clock read by [init] itself. On an
    ill-typed object the two plain writes are performed and [visitCount] is
    incremented when it is a number; the sum of a non-number and 1 is not
    a value of this model, and the entry is then left as loaded. *)
Definition init (atLoad atVisit : clock) (stored : option item) : session :=
  match load belowOneCoerced atLoad stored with
  | Typed s =>
      let s := setVisit (visitCount s + 1) (iso atVisit) (ms atVisit) s in
      Live (snd ((save ;;;
                  emit (Events.visit (visitCount s) (visitCount s =? 1)))
                   (mkStore s [])))
  | Untyped obj =>
      let obj :=
        match prop obj "visitCount" with
        | Some (JNum n) => setProp obj "visitCount" (JNum (n + 1))
        | _ => obj
        end in
      let obj := setProp obj "lastVisitDate" (JStr (iso atVisit)) in
      let obj := setProp obj "sessionStart" (JNum (ms atVisit)) in
      IllTyped obj
  end.

End Session.

(** *** Sequences of operations *)

(** One call of a recording operation of the store's interface. *)
Inductive op : Type :=
| AddDiscovery (id category label : string)
| AddConstellation (name : string) (stars : list string)
| AddGameComplete (gameId : string) (score : Z)
| AddTerminalCommand (command output : string)
| ClickStar
| ToggleAudio
| IncrementLoop.

Definition exec (o : op) (w : store) : store :=
  match o with
  | AddDiscovery id category label => snd (addDiscovery id category label w)
  | AddConstellation name stars => snd (addConstellation name stars w)
  | AddGameComplete gameId score => snd (addGameComplete gameId score w)
  | AddTerminalCommand command output => snd (addTerminalCommand command output w)
  | ClickStar => snd (clickStar w)
  | ToggleAudio => snd (toggleAudio w)
  | IncrementLoop => snd (incrementLoop w)
  end.

(** The calls of a session, in order. *)
Definition run (ops : list op) (w : store) : store := fold_left (fun w o => exec o w) ops w.

(** The discovery id that a call hands to [addDiscovery], if any. *)
Definition handsOver (o : op) : list string :=
  match o with
  | AddDiscovery id _ _ => [id]
  | AddConstellation name _ => ["constellation:" ++ name]
  | AddGameComplete gameId _ => ["game:" ++ gameId]
  | AddTerminalCommand _ _ => ["terminal:first-command"]
  | ClickStar => ["star:first-click"]
  | ToggleAudio => []
  | IncrementLoop => ["loop:first-reset"]
  end.

End Store.

(** ** The components that record discoveries directly *)

Module Components.

Import Store.

(** Flashlight overlay, [checkNight]: [wasActive] is the component's
    [active] flag before the call and [isNightTime] the reading of the
    clock; the result is the new flag. *)
Definition checkNight (wasActive isNightTime : bool) : M bool :=
  let active := isNightTime in
  (if active && negb wasActive then
     addDiscovery "night:flashlight" "time" "Night vision activated" ;;; ret tt
   else ret tt) ;;;
  ret active.

(** Hidden terminal, [openTerminal]: the call into the store. *)
Definition openTerminal : M unit :=
  addDiscovery "terminal:opened" "terminal" "Unlocked the terminal" ;;; ret tt.

(** Physics text, [scatter], with its container and canvas mounted:
    [scattered] is the component's flag before the call. *)
Definition scatter (scattered : bool) : M unit :=
  if scattered then ret tt
  else addDiscovery "physics:first-scatter" "physics" "Text went boom" ;;; ret tt.

(** End scene of the deep game: records the achievement. *)
Definition endScene : M unit :=
  addDiscovery "game:deep-complete" "meta" "Completed the deep game" ;;; ret tt.

End Components.

(** ** The specification's reading of progress, and its example graph *)

Module Spec.

Import KnowledgeGraph.

Definition allNodeIds (nodes : list KnowledgeNode) : list string := map id nodes.

(** [discoveries ∩ allNodeIds], as a duplicate-free list. *)
Definition discoveredNodeIds (nodes : list KnowledgeNode) (discoveries : list string)
  : list string :=
  filter (JS.includes (allNodeIds nodes)) (nodup string_dec discoveries).

(** The progress formula in the specification's words:
    [round(100 * |discoveries ∩ allNodeIds| / |allNodeIds|)]. *)
Definition progressOverGraph (nodes : list KnowledgeNode) (discoveries : list string)
  : JS.number :=
  let hit := Z.of_nat (List.length (discoveredNodeIds nodes discoveries)) in
  let total := Z.of_nat (List.length (allNodeIds nodes)) in
  if total =? 0 then JS.NaN else JS.Fin (JS.round_ratio (100 * hit) total).

(** The three-node graph of the specification's unlock and hint examples:
    A(requires: []), B(requires: [A]), C(requires: [A, B]). *)
Definition nodeA : KnowledgeNode := mkNode "A" "a" meta "" [] [] "".
Definition nodeB : KnowledgeNode := mkNode "B" "b" meta "" ["A"] [] "".
Definition nodeC : KnowledgeNode := mkNode "C" "c" meta "" ["A"; "B"] [] "".
Definition abcGraph : list KnowledgeNode := [nodeA; nodeB; nodeC].


(** A record treated as version 0, in the specification's words: the known
    version-0 fields that are present and type-correct are copied, and
    everything else falls back to the defaults, at the current version. *)
Definition treatedAsVersion0 (c : Store.clock) (raw : Store.value)
  : Store.DiscoveryState :=
  let d := Store.createDefaultState c in
  Store.mkState Store.SCHEMA_VERSION
    (match Store.asStrings (Store.prop raw "discoveries") with
     | Some l => l
     | None => Store.discoveries d
     end)
    (Store.constellations d) (Store.gamesCompleted d) (Store.terminalCommands d)
    (match Store.asNum (Store.prop raw "visitCount") with
     | Some n => n
     | None => Store.visitCount d
     end)
    (match Store.asStr (Store.prop raw "firstVisitDate") with
     | Some s => s
     | None => Store.firstVisitDate d
     end)
    (Store.lastVisitDate d) (Store.sessionStart d) (Store.loopCount d)
    (Store.audioEnabled d) (Store.totalClickedStars d).

(** A [discoveries] field that, when it is an array, holds only strings. *)
Definition discoveriesAreStrings (raw : Store.value) : Prop :=
  forall items, Store.prop raw "discoveries" = Some (Store.JArr items) ->
                Store.strings items <> None.

End Spec.

(** ** Invariants of the state *)

Module Invariant.

Import Store.

(** Every completed constellation and every completed game has its
    discovery: the set-valued fields resolve to discovery ids through the
    prefixes that [addConstellation] and [addGameComplete] use. *)
Definition resolvable (s : DiscoveryState) : Prop :=
  (forall name, In name (constellations s) ->
                In ("constellation:" ++ name) (discoveries s))
  /\ (forall gameId, In gameId (gamesCompleted s) ->
                     In ("game:" ++ gameId) (discoveries s)).

(** Every discovery names a node of the static graph. *)
Definition withinGraph (s : DiscoveryState) : Prop :=
  forall x, In x (discoveries s) ->
            KnowledgeGraph.getNode KnowledgeGraph.graphData x <> None.

End Invariant.

(** ** What the effects amount to *)

Module Trace.

Import Store.

(** The item under [STORAGE_KEY] after a sequence of effects, every write
    having gone through: the last state saved, or what was there before. *)
Definition storage (before : option item) (effects : list effect) : option item :=
  fold_left
    (fun held e =>
       match e with
       | Saved json => Some (Parsed json)
       | Emitted _ => held
       end)
    effects before.

(** The ids of the discovery events among the effects, in order. *)
Fixpoint announced (effects : list effect) : list string :=
  match effects with
  | [] => []
  | Emitted (Events.discovery id _ _) :: rest => id :: announced rest
  | _ :: rest => announced rest
  end.

(** A listener of the state-change topic that keeps the payload it was
    last sent, as the ship log does with [detail.discoveries]. *)
Definition followStateChange (seen : list string) (e : effect) : list string :=
  match e with
  | Emitted (Events.state_change discoveries _) => discoveries
  | _ => seen
  end.

(** The count that each state-change event carried, with the list it
    carried. *)
Fixpoint stateChanges (effects : list effect) : list (list string * nat) :=
  match effects with
  | [] => []
  | Emitted (Events.state_change discoveries totalCount) :: rest =>
      (discoveries, totalCount) :: stateChanges rest
  | _ :: rest => stateChanges rest
  end.

End Trace.

(** ** More queries of the store *)

Module StoreQueries.

Import Store.

(** Get session duration in milliseconds; [now] is [Date.now()]. *)
Definition getSessionDuration (now : Z) : M Z :=
  s <- read ;; ret (now - sessionStart s).

(** The four list fields hold no value twice. *)
Definition noDuplicates (s : DiscoveryState) : Prop :=
  NoDup (discoveries s) /\ NoDup (constellations s)
  /\ NoDup (gamesCompleted s) /\ NoDup (terminalCommands s).

End StoreQueries.

(** ** utils/time.ts *)

Module Time.

(** Night mode activates between 8 PM and 6 AM local time. [hour] is
    [new Date().getHours()]. *)
Definition isNightTime (hour : Z) : bool := (hour >=? 20) || (hour <? 6).

Inductive TimeOfDay : Type := dawn | day | dusk | night.

Definition getTimeOfDay (hour : Z) : TimeOfDay :=
  if (hour >=? 5) && (hour <? 8) then dawn
  else if (hour >=? 8) && (hour <? 18) then day
  else if (hour >=? 18) && (hour <? 20) then dusk
  else night.

End Time.

(** ** utils/loop.ts *)

Module LoopTimer.

(** 22 minutes *)
Definition LOOP_DURATION_MS : Z := 22 * 60 * 1000.

(** [now] is [Date.now()]. The [%] of JavaScript truncates towards zero:
    it is [Z.rem]. *)
Definition getTimeUntilNextLoop (now sessionStart : Z) : Z :=
  let elapsed := now - sessionStart in
  let remaining := LOOP_DURATION_MS - Z.rem elapsed LOOP_DURATION_MS in
  remaining.

End LoopTimer.

(** ** The flashlight overlay over time *)

Module Flashlight.

Import Store.

(** [checkNight] called once per reading of the hour (on mount, on every
    time-change event and every 30 seconds), the component's [active] flag
    carried from call to call. *)
Fixpoint checkNights (hours : list Z) (active : bool) : M bool :=
  match hours with
  | [] => ret active
  | hour :: rest =>
      active' <- Components.checkNight active (Time.isNightTime hour) ;;
      checkNights rest active'
  end.

End Flashlight.

(** ** The hidden terminal: keyboard handling *)

Module Terminal.

Import Store.

Definition KONAMI_CODE : list string :=
  ["ArrowUp"; "ArrowUp"; "ArrowDown"; "ArrowDown"; "ArrowLeft"; "ArrowRight";
   "ArrowLeft"; "ArrowRight"; "KeyB"; "KeyA"].

(** The two fields of a [KeyboardEvent] that the handler reads. *)
Record KeyboardEvent : Type := mkKey { key : string; code : string }.

(** The component's [isOpen] and [konamiProgress]; the displayed lines and
    the input text play no part in the key handling. *)
Record terminal : Type := mkTerminal { isOpen : bool; konamiProgress : nat }.

Definition initial : terminal := mkTerminal false 0.

(** [e.code === KONAMI_CODE[i]]; past the end the array reads
    [undefined], which no string equals. *)
Definition codeIs (e : KeyboardEvent) (i : nat) : bool :=
  match nth_error KONAMI_CODE i with
  | Some expected => String.eqb (code e) expected
  | None => false
  end.

Definition openTerminal (t : terminal) : M terminal :=
  let t := mkTerminal true (konamiProgress t) in
  Components.openTerminal ;;;
  ret t.

Definition handleKeydown (e : KeyboardEvent) (t : terminal) : M terminal :=
  if isOpen t && String.eqb (key e) "Escape" then
    ret (mkTerminal false (konamiProgress t))
  else if negb (isOpen t) then
    (* Track Konami code *)
    if codeIs e (konamiProgress t) then
      let t := mkTerminal (isOpen t) (S (konamiProgress t)) in
      if Nat.eqb (konamiProgress t) (List.length KONAMI_CODE) then
        let t := mkTerminal (isOpen t) 0 in
        openTerminal t
      else ret t
    else
      let t := mkTerminal (isOpen t) 0 in
      (* Check if the first key matches to start fresh *)
      if codeIs e 0 then ret (mkTerminal (isOpen t) 1) else ret t
  else ret t.

(** What reaches the component: a key press, or one of the other ways to
    close the terminal (the close button, the [exit] command, Escape on the
    overlay), which all set [isOpen] to false. *)
Inductive input : Type :=
| Keydown (e : KeyboardEvent)
| Close.

Definition handle (i : input) (t : terminal) : M terminal :=
  match i with
  | Keydown e => handleKeydown e t
  | Close => ret (mkTerminal false (konamiProgress t))
  end.

Fixpoint handleAll (inputs : list input) (t : terminal) : M terminal :=
  match inputs with
  | [] => ret t
  | i :: rest => t' <- handle i t ;; handleAll rest t'
  end.

(** The codes of the keys pressed, in order. *)
Fixpoint codes (inputs : list input) : list string :=
  match inputs with
  | [] => []
  | Keydown e :: rest => code e :: codes rest
  | Close :: rest => codes rest
  end.

End Terminal.

(** ** The knowledge gate *)

Module KnowledgeGate.

Import Store.

(** The component's [visible] and [animate], and whether it registered
    its listener of the discovery topic. *)
Record gate : Type := mkGate { visible : bool; animate : bool; listening : bool }.

(** [onMount]: shown at once, with no listener, when the discovery is
    already made. *)
Definition onMount (discoveryId : string) : M gate :=
  already <- hasDiscovery discoveryId ;;
  if already then ret (mkGate true false false)
  else ret (mkGate false false true).

(** The listener of the discovery topic. *)
Definition onDiscovery (discoveryId : string) (g : gate) (detailId : string) : gate :=
  if String.eqb detailId discoveryId && negb (visible g)
  then mkGate true true (listening g)
  else g.

(** One effect of the store reaching the gate: only a discovery event
    calls the listener, if there is one. *)
Definition deliver (discoveryId : string) (g : gate) (e : effect) : gate :=
  match e with
  | Emitted (Events.discovery id _ _) =>
      if listening g then onDiscovery discoveryId g id else g
  | _ => g
  end.

(** The gate mounted on the store [w], after the effects that a sequence
    of calls adds to the trace. *)
Definition after (discoveryId : string) (ops : list op) (w : store) : gate :=
  fold_left (deliver discoveryId)
    (skipn (List.length (trace w)) (trace (run ops w)))
    (fst (onMount discoveryId w)).

End KnowledgeGate.

(** ** Sample values for the concrete runs *)

Module Samples.

Definition noon : Store.clock :=
  Store.mkClock "2024-01-01T12:00:00.000Z" 1704110400000.

Definition later : Store.clock :=
  Store.mkClock "2024-01-02T12:00:00.000Z" 1704196800000.

(** A key press with the given [code]. *)
Definition arrow (c : string) : Terminal.input :=
  Terminal.Keydown (Terminal.mkKey "" c).

End Samples.

(** ** The mini-game loaders *)

(** [components/games/MiniGameLoader.svelte]. *)
Module MiniGameLoader.

Import Store.

(** The keys of [gameModules]. *)
Definition gameModules : list string :=
  ["star-catcher"; "signal-decoder"; "gravity-hop"; "nebula-painter"].

Definition handleComplete (gameId : string) (score : Z) : M unit :=
  addGameComplete gameId score ;;; ret tt.

(** A game reporting its score to the loader whose [gameId] prop is
    given. [startGame] starts a game only for a key of [gameModules] (for
    any other id it warns and returns; a name inherited from
    [Object.prototype] passes that test, but calling it as a loader fails
    inside the [try] block), and only a started game calls the completion
    callback, which is [handleComplete]. *)
Definition reportCompletion (gameId : string) (score : Z) : M unit :=
  if JS.includes gameModules gameId then handleComplete gameId score
  else ret tt.

End MiniGameLoader.

(** The second loader among the sources (a file whose name is not
    known): the same component, with the games keyed in camel case. *)
Module CamelCaseGameLoader.

Import Store.

(** The keys of [gameModules]. *)
Definition gameModules : list string :=
  ["starCatcher"; "signalDecoder"; "gravityHop"; "nebulaPainter"].

Definition handleComplete (gameId : string) (score : Z) : M unit :=
  addGameComplete gameId score ;;; ret tt.

(** As in [MiniGameLoader]. *)
Definition reportCompletion (gameId : string) (score : Z) : M unit :=
  if JS.includes gameModules gameId then handleComplete gameId score
  else ret tt.

End CamelCaseGameLoader.

(** ** Counters as numbers *)

Module Counter.

(** The counters of the state are JavaScript numbers and [+= 1] is an
    addition of doubles. On an integer between [-2^53] and [2^53 - 1] that
    addition is exact, so it is the [+ 1] of [Z]; from [2^53] on the double
    absorbs the 1. [exactFor steps n]: the integer [n] can be incremented
    [steps] times with every addition exact. *)
Definition exactFor (steps : nat) (n : Z) : Prop :=
  - 2 ^ 53 <= n /\ n + Z.of_nat steps <= 2 ^ 53.

End Counter.

(** * Properties *)

(** ** Array helpers *)

Lemma includes_In (arr : list string) (x : string) :
  JS.includes arr x = true <-> In x arr.
Proof.
  unfold JS.includes. rewrite existsb_exists. split.
  - intros [y [Hy Heq]]. apply String.eqb_eq in Heq. now subst.
  - intros H. exists x. split; [assumption | apply String.eqb_refl].
Qed.

Lemma includes_false (arr : list string) (x : string) :
  JS.includes arr x = false <-> ~ In x arr.
Proof.
  rewrite <- includes_In. destruct (JS.includes arr x); split; intros H.
  - discriminate.
  - exfalso. now apply H.
  - discriminate.
  - reflexivity.
Qed.

Lemma includes_push (arr : list string) (x : string) :
  JS.includes (JS.push arr x) x = true.
Proof. apply includes_In. unfold JS.push. apply in_or_app. right. now left. Qed.

Lemma length_push {A : Type} (arr : list A) (x : A) :
  List.length (JS.push arr x) = S (List.length arr).
Proof. unfold JS.push. rewrite length_app. simpl. lia. Qed.

(** ** Resolver *)

Section ResolverFacts.

Import KnowledgeGraph.

Variable nodes : list KnowledgeNode.

Lemma getNode_some (nodeId : string) (node : KnowledgeNode) :
  getNode nodes nodeId = Some node -> In node nodes /\ id node = nodeId.
Proof.
  unfold getNode. intros H. apply find_some in H. destruct H as [Hin Heq].
  split; [assumption | now apply String.eqb_eq].
Qed.

(** With pairwise distinct ids, looking a node up by its own id finds it. *)
Lemma getNode_own_id (node : KnowledgeNode) :
  NoDup (map id nodes) -> In node nodes -> getNode nodes (id node) = Some node.
Proof.
  unfold getNode. induction nodes as [| n rest IH]; intros Hnd Hin.
  - destruct Hin.
  - simpl in *. inversion Hnd as [| ? ? Hnotin Hnd']; subst.
    destruct Hin as [-> | Hin].
    + now rewrite String.eqb_refl.
    + destruct (String.eqb (id n) (id node)) eqn:E.
      * apply String.eqb_eq in E. exfalso. apply Hnotin. rewrite E.
        now apply in_map.
      * now apply IH.
Qed.

Lemma isUnlocked_of_node (nodeId : string) (node : KnowledgeNode)
      (discoveries : list string) :
  getNode nodes nodeId = Some node ->
  (isUnlocked nodes nodeId discoveries = true <->
   forall req, In req (requires node) -> In req discoveries).
Proof.
  intros Hget. unfold isUnlocked. rewrite Hget. rewrite forallb_forall.
  split; intros H req Hreq; apply includes_In; now apply H.
Qed.

Lemma hintable_iff (discoveries : list string) (n : KnowledgeNode) :
  In n (getHintableNodes nodes discoveries) <->
  In n nodes /\ ~ In (id n) discoveries /\
  (requires n = [] \/ exists req, In req (requires n) /\ In req discoveries).
Proof.
  unfold getHintableNodes. rewrite filter_In.
  destruct (JS.includes discoveries (id n)) eqn:Hdisc.
  - apply includes_In in Hdisc. split.
    + intros [_ H]. discriminate.
    + intros [_ [H _]]. contradiction.
  - apply includes_false in Hdisc. rewrite orb_true_iff, existsb_exists.
    split.
    + intros [Hin [Hlen | [req [Hreq Hinc]]]]; repeat split; try assumption.
      * left. destruct (requires n); [reflexivity | discriminate].
      * right. exists req. split; [assumption | now apply includes_In].
    + intros [Hin [_ [Hnil | [req [Hreq Hinc]]]]]; split; try assumption.
      * left. now rewrite Hnil.
      * right. exists req. split; [assumption | now apply includes_In].
Qed.

End ResolverFacts.

Lemma graphData_ids_distinct :
  NoDup (map KnowledgeGraph.id KnowledgeGraph.graphData).
Proof.
  apply (NoDup_count_occ' string_dec). intros x Hin.
  simpl in Hin.
  repeat (destruct Hin as [<- | Hin]; [reflexivity |]). destruct Hin.
Qed.

Section ResolverClaims.

Import KnowledgeGraph Spec.

(** C2. A node of the static graph is unlocked exactly when every id of
    its [requires] list is among the discoveries (strict AND); a node
    without requirements is unlocked whatever the discoveries. On the graph
    A(requires: []), B(requires: [A]), C(requires: [A, B]): with
    discoveries [A], B is unlocked and C is not; with [A, B], C is. *)
Theorem isUnlocked_strict_and (node : KnowledgeNode) (discoveries : list string) :
  In node graphData ->
  (isUnlocked graphData (id node) discoveries = true <->
   forall req, In req (requires node) -> In req discoveries)
  /\ (requires node = [] -> isUnlocked graphData (id node) discoveries = true)
  /\ isUnlocked abcGraph "B" ["A"] = true
  /\ isUnlocked abcGraph "C" ["A"] = false
  /\ isUnlocked abcGraph "C" ["A"; "B"] = true.
Proof.
  intros Hin.
  pose proof (getNode_own_id graphData node graphData_ids_distinct Hin) as Hget.
  pose proof (isUnlocked_of_node graphData _ _ discoveries Hget) as Hiff.
  split; [exact Hiff |].
  split.
  - intros Hnil. apply Hiff. rewrite Hnil. intros req [].
  - repeat split; reflexivity.
Qed.

Lemma isUnlocked_strict_and_witness :
  isUnlocked graphData "star:first-click" ["game:gravity-hop"] = true.
Proof.
  refine (proj1 (proj2 (isUnlocked_strict_and
           (mkNode "star:first-click" "First Light" star
              "You clicked your first star." [] ["star:pattern-hint"]
              "The stars are not just decoration.")
           ["game:gravity-hop"] _)) _).
  - simpl. left. reflexivity.
  - reflexivity.
Defined.

(** C3. The hintable nodes are exactly the graph's nodes that are not yet
    discovered and whose [requires] list is empty or has at least one
    discovered id (OR); so no returned node is already discovered, and an
    undiscovered unlocked node is always hintable. On the graph A, B, C of
    the specification: nothing discovered makes only A hintable, and
    discovering A makes B and C hintable, C while still locked. *)
Theorem getHintableNodes_or_semantics (discoveries : list string) (n : KnowledgeNode) :
  (In n (getHintableNodes graphData discoveries) <->
   In n graphData /\ ~ In (id n) discoveries /\
   (requires n = [] \/ exists req, In req (requires n) /\ In req discoveries))
  /\ (In n (getHintableNodes graphData discoveries) -> ~ In (id n) discoveries)
  /\ (In n graphData -> ~ In (id n) discoveries ->
      isUnlocked graphData (id n) discoveries = true ->
      In n (getHintableNodes graphData discoveries))
  /\ getHintableNodes abcGraph [] = [nodeA]
  /\ getHintableNodes abcGraph ["A"] = [nodeB; nodeC]
  /\ isUnlocked abcGraph "C" ["A"] = false.
Proof.
  split; [apply hintable_iff |].
  split; [intros H; now apply hintable_iff in H |].
  split; [| repeat split; reflexivity].
  intros Hin Hnew Hunl. apply hintable_iff. repeat split; try assumption.
  pose proof (getNode_own_id graphData n graphData_ids_distinct Hin) as Hget.
  pose proof (proj1 (isUnlocked_of_node graphData _ _ discoveries Hget) Hunl) as Hall.
  destruct (requires n) as [| req rest] eqn:E; [now left | right].
  exists req. split; [now left | apply Hall; now left].
Qed.

Lemma getHintableNodes_or_semantics_witness :
  In (mkNode "star:pattern-hint" "Pattern Recognition" star
        "A hint appeared about star patterns." ["star:first-click"] []
        "Some stars belong together.")
     (getHintableNodes graphData ["star:first-click"]).
Proof.
  refine (proj1 (proj2 (proj2 (getHintableNodes_or_semantics
            ["star:first-click"] _))) _ _ _).
  - simpl. right. left. reflexivity.
  - simpl. intros [H | []]. discriminate H.
  - reflexivity.
Defined.

Lemma filter_keeps_all {A : Type} (f : A -> bool) (l : list A) :
  (forall x, In x l -> f x = true) -> filter f l = l.
Proof.
  induction l as [| a l IH]; intros H; simpl.
  - reflexivity.
  - rewrite (H a (or_introl eq_refl)). f_equal. apply IH.
    intros x Hx. apply H. now right.
Qed.

Lemma round_ratio_mono (p p' q : Z) :
  0 < q -> p <= p' -> JS.round_ratio p q <= JS.round_ratio p' q.
Proof.
  intros Hq Hp. unfold JS.round_ratio. apply Z.div_le_mono; lia.
Qed.

Lemma getProgress_graphData (discoveries : list string) :
  getProgress graphData discoveries =
  JS.Fin (JS.round_ratio (Z.of_nat (List.length discoveries) * 100) 14).
Proof. reflexivity. Qed.

(** Where the supplied ids are pairwise distinct node ids, counting them
    and counting the intersection with the graph give the same number. *)
Lemma getProgress_over_graph (nodes : list KnowledgeNode) (discoveries : list string) :
  NoDup discoveries ->
  (forall x, In x discoveries -> In x (allNodeIds nodes)) ->
  nodes <> [] ->
  getProgress nodes discoveries = progressOverGraph nodes discoveries.
Proof.
  intros Hnd Hsub Hne. unfold getProgress, progressOverGraph, discoveredNodeIds.
  rewrite (nodup_fixed_point string_dec Hnd).
  rewrite filter_keeps_all by (intros x Hx; apply includes_In; now apply Hsub).
  unfold allNodeIds. rewrite length_map.
  destruct nodes as [| n rest]; [contradiction |].
  replace (Z.of_nat (List.length (n :: rest)) =? 0) with false
    by (symmetry; apply Z.eqb_neq; simpl List.length; lia).
  now rewrite Z.mul_comm.
Qed.

(** C4 (as the code has it). [getProgress] is
    [round(100 * discoveries.length / 14)], to the nearest integer: every
    supplied id counts, whether or not it names a node of the graph. It
    agrees with [round(100 * |discoveries ∩ allNodeIds| / |allNodeIds|)]
    whenever the supplied ids are pairwise distinct node ids; and 3
    discoveries over a graph of 12 nodes give 25. *)
Theorem getProgress_counts_supplied_ids (discoveries : list string) :
  getProgress graphData discoveries =
    JS.Fin (JS.round_ratio (Z.of_nat (List.length discoveries) * 100) 14)
  /\ (NoDup discoveries ->
      (forall x, In x discoveries -> In x (allNodeIds graphData)) ->
      getProgress graphData discoveries = progressOverGraph graphData discoveries)
  /\ (forall nodes : list KnowledgeNode,
        List.length nodes = 12%nat -> List.length discoveries = 3%nat ->
        getProgress nodes discoveries = JS.Fin 25).
Proof.
  split; [apply getProgress_graphData |].
  split.
  - intros Hnd Hsub. apply getProgress_over_graph; try assumption. discriminate.
  - intros nodes Hn Hd. unfold getProgress. rewrite Hn, Hd. reflexivity.
Qed.

Lemma getProgress_counts_supplied_ids_witness :
  getProgress graphData ["star:first-click"; "loop:first-reset"] =
  progressOverGraph graphData ["star:first-click"; "loop:first-reset"]
  /\ getProgress (nodeA :: nodeB :: nodeC :: firstn 9 graphData) ["A"; "B"; "C"]
     = JS.Fin 25.
Proof.
  split.
  - refine (proj1 (proj2 (getProgress_counts_supplied_ids
                            ["star:first-click"; "loop:first-reset"])) _ _).
    + repeat constructor; simpl; intuition discriminate.
    + simpl. intros x [<- | [<- | []]]; intuition.
  - refine (proj2 (proj2 (getProgress_counts_supplied_ids ["A"; "B"; "C"])) _ _ _);
      reflexivity.
Defined.

(** C4, the claim as stated, fails: a discovery that is not a node of the
    graph (the flashlight records ["night:flashlight"]) contributes to the
    percentage. *)
Lemma getProgress_not_over_graph :
  getProgress graphData ["night:flashlight"] = JS.Fin 7
  /\ progressOverGraph graphData ["night:flashlight"] = JS.Fin 0
  /\ getProgress graphData ["night:flashlight"]
     <> progressOverGraph graphData ["night:flashlight"].
Proof.
  split; [reflexivity |]. split; [reflexivity |]. discriminate.
Qed.

End ResolverClaims.

(** ** Store: recording operations *)

Section StoreFacts.

Import Store.

#[local] Arguments String.append : simpl never.

(** [addDiscovery], written out. *)
Lemma addDiscovery_eq (id category label : string) (w : store) :
  addDiscovery id category label w =
  if JS.includes (discoveries (state w)) id then (false, w)
  else
    let s := setDiscoveries (JS.push (discoveries (state w)) id) (state w) in
    (true,
     mkStore s
       (trace w ++ [Saved (encode s);
                    Emitted (Events.discovery id category label);
                    Emitted (Events.state_change (discoveries s)
                               (List.length (discoveries s)))])).
Proof.
  unfold addDiscovery, bind, read.
  destruct (JS.includes (discoveries (state w)) id); [reflexivity |].
  unfold write, save, emit, perform, bind, read, ret, JS.push. simpl.
  now rewrite <- !app_assoc.
Qed.

(** C1. Recording a discovery that is already present returns [false] and
    changes nothing: the state is the same, nothing is saved and nothing is
    emitted. Hence recording the same id twice in succession: the second
    call returns [false] and leaves the store, its discoveries included, as
    the first call left it. *)
Theorem addDiscovery_idempotent (id category label : string) (w : store) :
  (In id (discoveries (state w)) ->
   addDiscovery id category label w = (false, w))
  /\ (forall category' label' : string,
        let w1 := snd (addDiscovery id category label w) in
        addDiscovery id category' label' w1 = (false, w1)
        /\ discoveries (state (snd (addDiscovery id category' label' w1)))
           = discoveries (state w1)).
Proof.
  assert (Hpresent : forall c l v, In id (discoveries (state v)) ->
                                   addDiscovery id c l v = (false, v)).
  { intros c l v Hin. rewrite addDiscovery_eq.
    apply includes_In in Hin. now rewrite Hin. }
  split; [apply Hpresent |].
  intros category' label' w1.
  assert (Hin : In id (discoveries (state w1))).
  { subst w1. rewrite addDiscovery_eq.
    destruct (JS.includes (discoveries (state w)) id) eqn:E; simpl.
    - now apply includes_In.
    - apply includes_In, includes_push. }
  rewrite (Hpresent category' label' w1 Hin). split; reflexivity.
Qed.

Lemma addDiscovery_idempotent_witness :
  let w := mkStore (createDefaultState (mkClock "2024-01-01T00:00:00.000Z" 0)) [] in
  let w1 := snd (addDiscovery "star:first-click" "star" "Clicked first star" w) in
  discoveries (state w1) = ["star:first-click"]
  /\ addDiscovery "star:first-click" "star" "Clicked first star" w1 = (false, w1).
Proof.
  intros w w1. split; [reflexivity |].
  refine (proj1 (addDiscovery_idempotent "star:first-click" "star"
                   "Clicked first star" w1) _).
  simpl. left. reflexivity.
Defined.

(** Unfolds one operation down to [addDiscovery] and splits on every test
    the code makes. *)
Ltac step_through :=
  unfold exec, addConstellation, addGameComplete, addTerminalCommand,
    clickStar, toggleAudio, incrementLoop, Components.checkNight,
    Components.openTerminal, Components.scatter, Components.endScene,
    bind, read, write, save, emit, perform, ret;
  repeat (simpl;
          first [ rewrite addDiscovery_eq
                | match goal with
                  | |- context [if ?b then _ else _] => destruct b eqn:?
                  end ]);
  simpl.

(** One call leaves the discoveries as they were, or appends one id that
    was not there: the id the call hands to [addDiscovery]. *)
Lemma exec_discoveries (o : op) (w : store) :
  discoveries (state (exec o w)) = discoveries (state w)
  \/ exists x, In x (handsOver o) /\ ~ In x (discoveries (state w))
               /\ discoveries (state (exec o w)) = JS.push (discoveries (state w)) x.
Proof.
  destruct o; step_through;
    try (left; reflexivity);
    right; eexists; (split; [left; reflexivity |]);
    (split; [now apply includes_false | reflexivity]).
Qed.

Lemma exec_grows (o : op) (w : store) :
  (List.length (discoveries (state w)) <= List.length (discoveries (state (exec o w))))%nat.
Proof.
  destruct (exec_discoveries o w) as [-> | [x [_ [_ ->]]]].
  - lia.
  - rewrite length_push. lia.
Qed.

Lemma run_app (ops1 ops2 : list op) (w : store) :
  run (ops1 ++ ops2) w = run ops2 (run ops1 w).
Proof. unfold run. apply fold_left_app. Qed.

Lemma run_grows (ops : list op) (w : store) :
  (List.length (discoveries (state w)) <= List.length (discoveries (state (run ops w))))%nat.
Proof.
  revert w. induction ops as [| o ops IH]; intros w; simpl.
  - lia.
  - etransitivity; [apply (exec_grows o w) | apply IH].
Qed.

(** C7. Along any sequence of recording operations the number of
    discoveries and the progress percentage never go down: the store after
    a longer run has at least as many discoveries, and at least the
    progress, as after any of its prefixes (one call being the case of a
    one-element extension). *)
Theorem discoveries_and_progress_monotone (before after : list op) (w : store) :
  let earlier := discoveries (state (run before w)) in
  let later := discoveries (state (run (before ++ after) w)) in
  (List.length earlier <= List.length later)%nat
  /\ exists p q : Z,
       KnowledgeGraph.getProgress KnowledgeGraph.graphData earlier = JS.Fin p
       /\ KnowledgeGraph.getProgress KnowledgeGraph.graphData later = JS.Fin q
       /\ p <= q.
Proof.
  intros earlier later.
  assert (Hlen : (List.length earlier <= List.length later)%nat).
  { subst earlier later. rewrite run_app. apply run_grows. }
  split; [exact Hlen |].
  exists (JS.round_ratio (Z.of_nat (List.length earlier) * 100) 14),
         (JS.round_ratio (Z.of_nat (List.length later) * 100) 14).
  rewrite !getProgress_graphData. repeat split.
  apply round_ratio_mono; lia.
Qed.

Lemma length_push_one {A : Type} (arr : list A) (x : A) :
  Nat.eqb (List.length (JS.push arr x)) 1 = true <-> arr = [].
Proof.
  rewrite length_push, Nat.eqb_eq. destruct arr; simpl; split;
    intros H; try reflexivity; try discriminate.
Qed.

(** C10. [addTerminalCommand] ends every call by emitting the
    terminal-command event with the command and its output. For a command
    already recorded that event is all that happens: same state, nothing
    saved, no discovery. The first command ever recorded (the history
    reaching length 1) is saved and then cascades into [addDiscovery] of
    ["terminal:first-command"] before the event; a later new command is
    saved without any cascade. *)
Theorem addTerminalCommand_always_emits (command output : string) (w : store) :
  let announce := Emitted (Events.terminal_command command output) in
  let done := snd (addTerminalCommand command output w) in
  (exists before, trace done = (before ++ [announce])%list)
  /\ (In command (terminalCommands (state w)) ->
      done = mkStore (state w) (trace w ++ [announce]))
  /\ (terminalCommands (state w) = [] ->
      let s := setTerminalCommands [command] (state w) in
      let cascaded :=
        snd (addDiscovery "terminal:first-command" "terminal"
               "First terminal command"
               (mkStore s (trace w ++ [Saved (encode s)]))) in
      done = mkStore (state cascaded) (trace cascaded ++ [announce])
      /\ In "terminal:first-command" (discoveries (state done)))
  /\ (~ In command (terminalCommands (state w)) ->
      terminalCommands (state w) <> [] ->
      let s := setTerminalCommands
                 (JS.push (terminalCommands (state w)) command) (state w) in
      done = mkStore s (trace w ++ [Saved (encode s); announce])).
Proof.
  intros announce done. subst announce done. repeat split.
  - step_through; eexists; unfold JS.push; reflexivity.
  - intros Hin. apply includes_In in Hin.
    unfold addTerminalCommand, bind, read. simpl. rewrite Hin. reflexivity.
  - unfold addTerminalCommand, bind, read, write, save, perform, emit, ret.
    simpl. rewrite H. simpl. rewrite !addDiscovery_eq. simpl.
    destruct (JS.includes (discoveries (state w)) "terminal:first-command");
      reflexivity.
  - unfold addTerminalCommand, bind, read, write, save, perform, emit, ret.
    simpl. rewrite H. simpl. rewrite !addDiscovery_eq. simpl.
    destruct (JS.includes (discoveries (state w)) "terminal:first-command") eqn:E;
      simpl.
    + now apply includes_In.
    + apply includes_In, includes_push.
  - intros Hnew Hsome. apply includes_false in Hnew.
    unfold addTerminalCommand, bind, read, write, save, perform, emit, ret.
    simpl. rewrite Hnew. simpl.
    destruct (Nat.eqb (List.length (JS.push (terminalCommands (state w)) command)) 1)
      eqn:E.
    + apply length_push_one in E. contradiction.
    + simpl. unfold JS.push. now rewrite <- app_assoc.
Qed.

Lemma addTerminalCommand_always_emits_witness :
  let w := mkStore (createDefaultState (mkClock "2024-01-01T00:00:00.000Z" 0)) [] in
  let once := snd (addTerminalCommand "help" "Available commands:" w) in
  let twice := snd (addTerminalCommand "help" "Available commands:" once) in
  discoveries (state once) = ["terminal:first-command"]
  /\ twice = mkStore (state once)
               (trace once ++
                [Emitted (Events.terminal_command "help" "Available commands:")]).
Proof.
  intros w once twice. split; [reflexivity |].
  refine (proj1 (proj2 (addTerminalCommand_always_emits "help"
                          "Available commands:" once)) _).
  simpl. left. reflexivity.
Defined.

Ltac includes_to_In :=
  repeat match goal with
         | H : JS.includes _ _ = true |- _ => apply includes_In in H
         | H : JS.includes _ _ = false |- _ => apply includes_false in H
         end.

Lemma exec_resolvable (o : op) (w : store) :
  Invariant.resolvable (state w) -> Invariant.resolvable (state (exec o w)).
Proof.
  intros [Hc Hg].
  destruct o; step_through; includes_to_In; split; simpl; intros n Hn;
    unfold JS.push in *; rewrite ?in_app_iff in *; simpl in *;
    try (destruct Hn as [Hn | [<- | []]]); auto.
Qed.

Lemma run_resolvable (ops : list op) (w : store) :
  Invariant.resolvable (state w) -> Invariant.resolvable (state (run ops w)).
Proof.
  revert w. induction ops as [| o ops IH]; intros w H; simpl.
  - exact H.
  - apply IH. now apply exec_resolvable.
Qed.

(** Every discovery was there at the start or was handed over by a call. *)
Lemma run_provenance (ops : list op) (w : store) (x : string) :
  In x (discoveries (state (run ops w))) ->
  In x (discoveries (state w)) \/ exists o, In o ops /\ In x (handsOver o).
Proof.
  revert w. induction ops as [| o ops IH]; intros w Hin; simpl in *.
  - now left.
  - destruct (IH _ Hin) as [Hold | [o' [Ho' Hx]]].
    + destruct (exec_discoveries o w) as [E | [y [Hy [_ E]]]]; rewrite E in Hold.
      * now left.
      * unfold JS.push in Hold. apply in_app_or in Hold.
        destruct Hold as [Hold | [<- | []]]; [now left |].
        right. exists o. split; [now left | assumption].
    + right. exists o'. split; [now right | assumption].
Qed.

(** C9 (as the code has it). The store never checks an id against the
    graph. What holds along any sequence of calls: every discovery was in
    the loaded state or is the id some call handed to [addDiscovery]; the
    completed constellations and games keep resolving to discovery ids
    through their prefixes; and the discoveries stay within the graph as
    long as every id handed over names a node. The milestone cascades, the
    end scene and the games completed through [MiniGameLoader] hand over
    node ids; the flashlight, the terminal and the physics text are plain
    [addDiscovery] calls whose ids name no node, and neither do the ids of
    the games completed through the loader that keys them in camel case. *)
Theorem discoveries_follow_calls (ops : list op) (w : store) :
  (forall x, In x (discoveries (state (run ops w))) ->
             In x (discoveries (state w))
             \/ exists o, In o ops /\ In x (handsOver o))
  /\ (Invariant.resolvable (state w) -> Invariant.resolvable (state (run ops w)))
  /\ (Invariant.withinGraph (state w) ->
      (forall o x, In o ops -> In x (handsOver o) ->
                   KnowledgeGraph.getNode KnowledgeGraph.graphData x <> None) ->
      Invariant.withinGraph (state (run ops w)))
  /\ (forall x,
        In x (handsOver ClickStar ++ handsOver (AddTerminalCommand "" "")
              ++ handsOver IncrementLoop
              ++ ["game:deep-complete"])%list ->
        KnowledgeGraph.getNode KnowledgeGraph.graphData x <> None)
  /\ (forall gameId score,
        snd (MiniGameLoader.reportCompletion gameId score w)
        = (if JS.includes MiniGameLoader.gameModules gameId
           then exec (AddGameComplete gameId score) w else w)
        /\ (In gameId MiniGameLoader.gameModules ->
            forall x, In x (handsOver (AddGameComplete gameId score)) ->
                      KnowledgeGraph.getNode KnowledgeGraph.graphData x <> None))
  /\ (forall gameId score,
        snd (CamelCaseGameLoader.reportCompletion gameId score w)
        = (if JS.includes CamelCaseGameLoader.gameModules gameId
           then exec (AddGameComplete gameId score) w else w)
        /\ (In gameId CamelCaseGameLoader.gameModules ->
            forall x, In x (handsOver (AddGameComplete gameId score)) ->
                      KnowledgeGraph.getNode KnowledgeGraph.graphData x = None))
  /\ (forall was night, exists o,
        snd (Components.checkNight was night w) = run o w
        /\ (o = [] \/ o = [AddDiscovery "night:flashlight" "time"
                             "Night vision activated"]))
  /\ snd (Components.openTerminal w)
     = exec (AddDiscovery "terminal:opened" "terminal" "Unlocked the terminal") w
  /\ snd (Components.scatter false w)
     = exec (AddDiscovery "physics:first-scatter" "physics" "Text went boom") w
  /\ snd (Components.endScene w)
     = exec (AddDiscovery "game:deep-complete" "meta" "Completed the deep game") w
  /\ (forall x, In x ["night:flashlight"; "terminal:opened"; "physics:first-scatter"] ->
                KnowledgeGraph.getNode KnowledgeGraph.graphData x = None).
Proof.
  split; [intros x; apply run_provenance |].
  split; [apply run_resolvable |].
  split.
  { intros Hstart Hops x Hx.
    destruct (run_provenance ops w x Hx) as [Hold | [o [Ho Hox]]].
    - now apply Hstart.
    - now apply (Hops o x). }
  split.
  { simpl. intros x Hx.
    repeat (destruct Hx as [<- | Hx]; [discriminate |]). destruct Hx. }
  split.
  { intros gameId score. split.
    - unfold MiniGameLoader.reportCompletion, MiniGameLoader.handleComplete, bind, ret.
      destruct (JS.includes MiniGameLoader.gameModules gameId); [| reflexivity].
      simpl. now destruct (addGameComplete gameId score w).
    - intros Hin x Hx. simpl in Hin.
      repeat (destruct Hin as [<- | Hin];
              [destruct Hx as [<- | []]; vm_compute; discriminate |]).
      destruct Hin. }
  split.
  { intros gameId score. split.
    - unfold CamelCaseGameLoader.reportCompletion,
        CamelCaseGameLoader.handleComplete, bind, ret.
      destruct (JS.includes CamelCaseGameLoader.gameModules gameId); [| reflexivity].
      simpl. now destruct (addGameComplete gameId score w).
    - intros Hin x Hx. simpl in Hin.
      repeat (destruct Hin as [<- | Hin];
              [destruct Hx as [<- | []]; vm_compute; reflexivity |]).
      destruct Hin. }
  split.
  { intros was night. destruct night, was;
      first [ exists []; split; [step_through; now destruct w | now left]
            | eexists; split; [| right; reflexivity];
              step_through; reflexivity ]. }
  split; [step_through; reflexivity |].
  split; [step_through; reflexivity |].
  split; [step_through; reflexivity |].
  simpl. intros x Hx.
  repeat (destruct Hx as [<- | Hx]; [reflexivity |]). destruct Hx.
Qed.

Lemma discoveries_follow_calls_witness :
  let w := mkStore (createDefaultState (mkClock "2024-01-01T00:00:00.000Z" 0)) [] in
  let ops := [ClickStar; AddConstellation "orion" ["betelgeuse"; "rigel"];
              AddGameComplete "gravity-hop" 120] in
  discoveries (state (run ops w))
  = ["star:first-click"; "constellation:orion"; "game:gravity-hop"]
  /\ Invariant.resolvable (state (run ops w))
  /\ Invariant.withinGraph (state (run ops w)).
Proof.
  intros w ops. split; [reflexivity |].
  pose proof (discoveries_follow_calls ops w) as [_ [Hres [Hgraph _]]].
  split.
  - apply Hres. split; simpl; intros n [].
  - apply Hgraph.
    + intros x [].
    + subst ops. simpl. intros o x Ho Hx.
      repeat (destruct Ho as [<- | Ho];
              [simpl in Hx; destruct Hx as [<- | []]; discriminate |]).
      destruct Ho.
Defined.

End StoreFacts.

(** ** Store: loading and migration *)

Section LoadFacts.

Import Store Spec.

Variable belowOneCoerced : value -> bool.

Lemma strings_map_JStr (l : list string) : strings (map JStr l) = Some l.
Proof. induction l as [| x l IH]; simpl; [reflexivity | now rewrite IH]. Qed.

(** The object that [save] writes reads back as the state it was made
    from. *)
Lemma asState_encode (s : DiscoveryState) : asState (encode s) = Some s.
Proof.
  unfold asState, encode. simpl. rewrite !strings_map_JStr. now destruct s.
Qed.

Lemma strings_inv (items : list value) (l : list string) :
  strings items = Some l -> items = map JStr l.
Proof.
  revert l. induction items as [| v items IH]; intros l H; simpl in H.
  - now inversion H.
  - destruct v; try discriminate.
    destruct (strings items) as [l' |]; [| discriminate].
    inversion H; subst. simpl. f_equal. now apply IH.
Qed.

Lemma cast_encode (s : DiscoveryState) : cast (encode s) = Typed s.
Proof. unfold cast. now rewrite asState_encode. Qed.

(** [migrate], written out: a record that passes the version test is
    treated as version 0, any other comes back as the defaults. *)
Lemma migrate_eq (c : clock) (raw : value) :
  discoveriesAreStrings raw ->
  migrate belowOneCoerced c raw =
  Typed (if isVersion0 belowOneCoerced raw then treatedAsVersion0 c raw
         else createDefaultState c).
Proof.
  intros Hstr. unfold migrate, treatedAsVersion0.
  destruct (isVersion0 belowOneCoerced raw); [| reflexivity].
  unfold discoveriesAreStrings in Hstr.
  destruct (prop raw "discoveries") as [[| | | | items |] |];
    destruct (prop raw "visitCount") as [[| | | | |] |];
    destruct (prop raw "firstVisitDate") as [[| | | | |] |];
    try reflexivity;
    specialize (Hstr items eq_refl);
    destruct (strings items) as [l |] eqn:E; try contradiction;
    unfold cast, asState; simpl; rewrite E; reflexivity.
Qed.

Lemma asNum_inv (v : option value) (n : Z) :
  asNum v = Some n -> v = Some (JNum n).
Proof. destruct v as [[| | | | |] |]; simpl; intros H; inversion H; reflexivity. Qed.

Lemma asState_version (raw : value) (s : DiscoveryState) :
  asState raw = Some s -> prop raw "version" = Some (JNum (version s)).
Proof.
  unfold asState. intros H.
  destruct (asNum (prop raw "version")) as [ver |] eqn:Ever; [| discriminate].
  apply asNum_inv in Ever. rewrite Ever.
  repeat match type of H with
         | context [match ?x with _ => _ end] => destruct x; try discriminate
         end.
  now inversion H.
Qed.

Lemma load_current (c : clock) (raw : value) (s : DiscoveryState) :
  asState raw = Some s -> version s = SCHEMA_VERSION ->
  load belowOneCoerced c (Some (Parsed raw)) = Typed s.
Proof.
  intros Hs Hv. pose proof (asState_version raw s Hs) as Hver.
  unfold load. destruct raw; try discriminate.
  rewrite Hver, Hv. simpl. unfold cast. now rewrite Hs.
Qed.

Lemma load_other_version (c : clock) (raw : value) :
  discoveriesAreStrings raw ->
  prop raw "version" <> Some (JNum SCHEMA_VERSION) ->
  load belowOneCoerced c (Some (Parsed raw)) =
  Typed (if isVersion0 belowOneCoerced raw then treatedAsVersion0 c raw
         else createDefaultState c).
Proof.
  intros Hstr Hver. unfold load. destruct raw; try reflexivity;
    try (rewrite <- migrate_eq by assumption; reflexivity).
  destruct (prop (JObj fields) "version") as [[| | n | | |] |] eqn:E;
    try (rewrite <- migrate_eq by assumption; reflexivity).
  destruct (n =? SCHEMA_VERSION) eqn:En.
  - apply Z.eqb_eq in En. subst n. contradiction.
  - now rewrite <- migrate_eq by assumption.
Qed.

(** C5 (as the code has it). Migrating the version-0 record
    [{discoveries: ["a"]}] gives a version-1 state with discoveries ["a"]
    and every other field at its default. Loading that state again, once
    saved, gives it back unchanged, because [load] returns a record of the
    current version as it is; [migrate] itself, applied to the version-1
    result, returns the defaults. *)
Theorem migrate_version0_then_reload (c c' : clock) :
  let record := JObj [("discoveries", JArr [JStr "a"])] in
  let migrated := setDiscoveries ["a"] (createDefaultState c) in
  migrate belowOneCoerced c record = Typed migrated
  /\ load belowOneCoerced c (Some (Parsed record)) = Typed migrated
  /\ version migrated = 1
  /\ discoveries migrated = ["a"]
  /\ load belowOneCoerced c' (Some (Parsed (encode migrated))) = Typed migrated
  /\ migrate belowOneCoerced c' (encode migrated) = Typed (createDefaultState c').
Proof.
  repeat split; reflexivity.
Qed.

(** C6 (as the code has it). A stored record whose version is not the
    current one goes through [migrate]. If its version field is missing
    or falsy, or compares below 1, it is treated as version 0: the
    version-0 fields that are present and type-correct are copied and the
    rest are defaults. Any other version, a number above the current one
    for instance, yields the plain defaults: nothing is copied. Either way
    the result has the current version. *)
Theorem load_version_gate (c : clock) (raw : value) :
  discoveriesAreStrings raw ->
  prop raw "version" <> Some (JNum SCHEMA_VERSION) ->
  load belowOneCoerced c (Some (Parsed raw)) =
    Typed (if isVersion0 belowOneCoerced raw then treatedAsVersion0 c raw
           else createDefaultState c)
  /\ (prop raw "version" = None -> isVersion0 belowOneCoerced raw = true)
  /\ (forall n, prop raw "version" = Some (JNum n) ->
                isVersion0 belowOneCoerced raw = (n <? 1))
  /\ version (treatedAsVersion0 c raw) = SCHEMA_VERSION
  /\ version (createDefaultState c) = SCHEMA_VERSION.
Proof.
  intros Hstr Hver. split; [now apply load_other_version |].
  split; [intros H; unfold isVersion0; now rewrite H |].
  split; [| split; reflexivity].
  intros n H. unfold isVersion0. rewrite H. simpl.
  destruct (Z.eqb_spec n 0) as [-> | Hn]; simpl; [reflexivity |].
  reflexivity.
Qed.

(** C8 (as the code has it). [init] returns a state with every field of
    the current schema, correctly typed and at the current version, and
    has saved it and emitted the visit, when the storage is empty or
    unparsable, holds a well-formed record of the current version, or
    holds a record of another version whose [discoveries], if an array,
    holds only strings. *)
Theorem init_matches_schema (atLoad atVisit : clock) (stored : option item) :
  stored = None \/ stored = Some Unparsable
  \/ (exists raw s, stored = Some (Parsed raw) /\ asState raw = Some s
                    /\ version s = SCHEMA_VERSION)
  \/ (exists raw, stored = Some (Parsed raw)
                  /\ prop raw "version" <> Some (JNum SCHEMA_VERSION)
                  /\ discoveriesAreStrings raw) ->
  exists w,
    init belowOneCoerced atLoad atVisit stored = Live w
    /\ version (state w) = SCHEMA_VERSION
    /\ asState (encode (state w)) = Some (state w)
    /\ lastVisitDate (state w) = iso atVisit
    /\ sessionStart (state w) = ms atVisit
    /\ trace w = [Saved (encode (state w));
                  Emitted (Events.visit (visitCount (state w))
                             (visitCount (state w) =? 1))].
Proof.
  intros Hstored.
  assert (Hload : exists s, load belowOneCoerced atLoad stored = Typed s
                            /\ version s = SCHEMA_VERSION).
  { destruct Hstored as [-> | [-> | [[raw [s [-> [Hs Hv]]]] | [raw [-> [Hver Hstr]]]]]].
    - eexists; split; reflexivity.
    - eexists; split; reflexivity.
    - exists s. split; [now apply load_current | assumption].
    - rewrite load_other_version by assumption.
      eexists; split; [reflexivity |].
      now destruct (isVersion0 belowOneCoerced raw). }
  destruct Hload as [s [Hload Hv]].
  unfold init. rewrite Hload. eexists. split; [reflexivity |].
  simpl. repeat split; try assumption. apply asState_encode.
Qed.

End LoadFacts.

(** ** Store: concrete records *)

Section LoadExamples.

Import Store Spec.

(** C5, the claim as stated, fails: [migrate] applied again to the result
    of migrating [{discoveries: ["a"]}] does not give that result back; it
    drops the discovery, the record now being of version 1. *)
Lemma migrate_twice_resets :
  let c := mkClock "2024-01-01T00:00:00.000Z" 1704067200000 in
  let record := JObj [("discoveries", JArr [JStr "a"])] in
  let migrated := setDiscoveries ["a"] (createDefaultState c) in
  migrate (fun _ => false) c record = Typed migrated
  /\ migrate (fun _ => false) c (encode migrated) = Typed (createDefaultState c)
  /\ migrate (fun _ => false) c (encode migrated) <> Typed migrated.
Proof.
  intros c record migrated. split; [reflexivity |]. split; [reflexivity |].
  intros H. discriminate H.
Qed.

Lemma load_version_gate_witness :
  let c := mkClock "2024-01-01T00:00:00.000Z" 1704067200000 in
  let raw := JObj [("discoveries", JArr [JStr "a"]); ("visitCount", JNum 3)] in
  load (fun _ => false) c (Some (Parsed raw))
  = Typed (mkState 1 ["a"] [] [] [] 3 (iso c) (iso c) (ms c) 0 false 0).
Proof.
  intros c raw.
  refine (proj1 (load_version_gate (fun _ => false) c raw _ _)).
  - intros items H. inversion H. discriminate.
  - discriminate.
Defined.

(** C6, the claim as stated, fails: a record of an unknown version, here
    version 2, is not treated as version 0. Its discoveries are not
    copied; the result is the plain defaults. *)
Lemma load_unknown_version_gives_defaults :
  let c := mkClock "2024-01-01T00:00:00.000Z" 1704067200000 in
  let raw := JObj [("version", JNum 2); ("discoveries", JArr [JStr "a"])] in
  load (fun _ => false) c (Some (Parsed raw)) = Typed (createDefaultState c)
  /\ discoveries (createDefaultState c) = []
  /\ discoveries (treatedAsVersion0 c raw) = ["a"]
  /\ load (fun _ => false) c (Some (Parsed raw)) <> Typed (treatedAsVersion0 c raw).
Proof.
  intros c raw. repeat split. intros H. discriminate H.
Qed.

Lemma init_matches_schema_witness :
  let atLoad := mkClock "2024-01-01T00:00:00.000Z" 1704067200000 in
  let atVisit := mkClock "2024-01-01T00:00:00.001Z" 1704067200001 in
  let raw := JObj [("discoveries", JArr [JStr "a"]); ("visitCount", JNum 3)] in
  exists w,
    init (fun _ => false) atLoad atVisit (Some (Parsed raw)) = Live w
    /\ version (state w) = SCHEMA_VERSION
    /\ asState (encode (state w)) = Some (state w)
    /\ lastVisitDate (state w) = iso atVisit
    /\ sessionStart (state w) = ms atVisit
    /\ trace w = [Saved (encode (state w));
                  Emitted (Events.visit (visitCount (state w))
                             (visitCount (state w) =? 1))].
Proof.
  intros atLoad atVisit raw.
  apply (init_matches_schema (fun _ => false) atLoad atVisit (Some (Parsed raw))).
  right. right. right. exists raw. split; [reflexivity |]. split.
  - discriminate.
  - intros items H. inversion H. discriminate.
Defined.

(** C8, the claim as stated, fails: an older record whose [discoveries]
    is an array of something else than strings passes [Array.isArray] and
    is taken over as it is, so the state [init] returns has a
    [discoveries] field that is not a [string[]]. *)
Lemma init_keeps_untyped_discoveries :
  let atLoad := mkClock "2024-01-01T00:00:00.000Z" 1704067200000 in
  let atVisit := mkClock "2024-01-01T00:00:00.001Z" 1704067200001 in
  let stored := Some (Parsed (JObj [("discoveries", JArr [JNum 1])])) in
  exists obj,
    init (fun _ => false) atLoad atVisit stored = IllTyped obj
    /\ prop obj "version" = Some (JNum 1)
    /\ prop obj "discoveries" = Some (JArr [JNum 1])
    /\ prop obj "visitCount" = Some (JNum 1)
    /\ asState obj = None
    /\ forall w, init (fun _ => false) atLoad atVisit stored <> Live w.
Proof.
  intros atLoad atVisit stored. eexists. split; [reflexivity |].
  repeat split. intros w H. discriminate H.
Qed.

(** C9, the claim as stated, fails: on a first visit, opening the
    terminal records ["terminal:opened"], which names no node of the
    graph. *)
Lemma openTerminal_leaves_graph :
  let c := mkClock "2024-01-01T00:00:00.000Z" 1704067200000 in
  exists w,
    init (fun _ => false) c c None = Live w
    /\ discoveries (state (snd (Components.openTerminal w))) = ["terminal:opened"]
    /\ KnowledgeGraph.getNode KnowledgeGraph.graphData "terminal:opened" = None
    /\ ~ Invariant.withinGraph (state (snd (Components.openTerminal w))).
Proof.
  intros c. eexists. split; [reflexivity |]. split; [reflexivity |].
  split; [reflexivity |].
  intros H. apply (H "terminal:opened"); [simpl; now left | reflexivity].
Qed.

End LoadExamples.

(** * Further properties of the code *)

(** ** Store: each operation as a change of state and a list of effects *)

Section StoreSteps.

Import Store.

#[local] Arguments String.append : simpl never.

Ltac open_op :=
  unfold exec, addConstellation, addGameComplete, addTerminalCommand,
    clickStar, toggleAudio, incrementLoop,
    bind, read, write, save, emit, perform, ret;
  repeat (simpl;
          first [ rewrite addDiscovery_eq
                | match goal with
                  | |- context [if ?b then _ else _] => destruct b eqn:?
                  end ]);
  simpl; unfold JS.push; rewrite <- ?app_assoc; simpl.

Lemma storage_app (before : option item) (a b : list effect) :
  Trace.storage before (a ++ b) = Trace.storage (Trace.storage before a) b.
Proof. unfold Trace.storage. apply fold_left_app. Qed.

Lemma announced_app (a b : list effect) :
  Trace.announced (a ++ b) = (Trace.announced a ++ Trace.announced b)%list.
Proof.
  induction a as [| e a IH]; simpl; [reflexivity |].
  destruct e as [json | []]; simpl; now rewrite ?IH.
Qed.

Lemma stateChanges_app (a b : list effect) :
  Trace.stateChanges (a ++ b)
  = (Trace.stateChanges a ++ Trace.stateChanges b)%list.
Proof.
  induction a as [| e a IH]; simpl; [reflexivity |].
  destruct e as [json | []]; simpl; now rewrite ?IH.
Qed.

(** What one call does, seen from outside: it extends the trace by some
    effects and the discoveries by some ids, which are the ids of the
    discovery events among those effects; a listener that keeps the
    state-change payload ends with the new discoveries; and the storage, if
    it held the state before, holds the state after. *)
Lemma exec_appends (o : op) (w : store) :
  exists (new : list effect) (suffix : list string),
    trace (exec o w) = (trace w ++ new)%list
    /\ discoveries (state (exec o w)) = (discoveries (state w) ++ suffix)%list
    /\ Trace.announced new = suffix
    /\ fold_left Trace.followStateChange new (discoveries (state w))
       = discoveries (state (exec o w))
    /\ Trace.storage (Some (Parsed (encode (state w)))) new
       = Some (Parsed (encode (state (exec o w))))
    /\ map snd (Trace.stateChanges new)
       = seq (S (List.length (discoveries (state w)))) (List.length suffix)
    /\ Forall (fun change => snd change = List.length (fst change))
         (Trace.stateChanges new).
Proof.
  destruct o; open_op;
    do 2 eexists;
    (split; [first [reflexivity | symmetry; apply app_nil_r] |]);
    (split; [first [reflexivity | symmetry; apply app_nil_r] |]);
    (split; [reflexivity |]);
    (split; [reflexivity |]);
    (split; [reflexivity |]);
    (split; [simpl; rewrite ?length_app; simpl; rewrite ?Nat.add_1_r; reflexivity |]);
    repeat constructor.
Qed.

Lemma run_appends (ops : list op) (w : store) :
  exists (new : list effect) (suffix : list string),
    trace (run ops w) = (trace w ++ new)%list
    /\ discoveries (state (run ops w)) = (discoveries (state w) ++ suffix)%list
    /\ Trace.announced new = suffix
    /\ fold_left Trace.followStateChange new (discoveries (state w))
       = discoveries (state (run ops w))
    /\ Trace.storage (Some (Parsed (encode (state w)))) new
       = Some (Parsed (encode (state (run ops w))))
    /\ map snd (Trace.stateChanges new)
       = seq (S (List.length (discoveries (state w)))) (List.length suffix)
    /\ Forall (fun change => snd change = List.length (fst change))
         (Trace.stateChanges new).
Proof.
  revert w. induction ops as [| o ops IH]; intros w; simpl.
  - exists [], []. rewrite !app_nil_r. repeat split; try reflexivity. constructor.
  - destruct (exec_appends o w) as [n1 [s1 [Ht1 [Hd1 [Ha1 [Hf1 [Hs1 [Hc1 Hl1]]]]]]]].
    destruct (IH (exec o w)) as [n2 [s2 [Ht2 [Hd2 [Ha2 [Hf2 [Hs2 [Hc2 Hl2]]]]]]]].
    exists (n1 ++ n2)%list, (s1 ++ s2)%list.
    fold (run ops (exec o w)).
    split; [rewrite Ht2, Ht1; now rewrite app_assoc |].
    split; [rewrite Hd2, Hd1; now rewrite app_assoc |].
    split; [rewrite announced_app; now rewrite Ha1, Ha2 |].
    split; [now rewrite fold_left_app, Hf1, Hf2 |].
    split; [now rewrite storage_app, Hs1, Hs2 |].
    split.
    + rewrite stateChanges_app, map_app, Hc1, Hc2, Hd1, !length_app, seq_app.
      do 2 f_equal; lia.
    + rewrite stateChanges_app. apply Forall_app. now split.
Qed.

Lemma trace_since (ops : list op) (w : store) (new : list effect) :
  trace (run ops w) = (trace w ++ new)%list ->
  skipn (List.length (trace w)) (trace (run ops w)) = new.
Proof.
  intros H. rewrite H. rewrite skipn_app, skipn_all, Nat.sub_diag. reflexivity.
Qed.

(** X1. A discovery is never removed or reordered: after any sequence of
    calls the earlier discoveries are the leading part of the list, in the
    same order, and [hasDiscovery] stays true for each of them. *)
Theorem discoveries_only_appended (ops : list op) (w : store) (id : string) :
  fst (hasDiscovery id w) = true ->
  fst (hasDiscovery id (run ops w)) = true
  /\ firstn (List.length (discoveries (state w))) (discoveries (state (run ops w)))
     = discoveries (state w).
Proof.
  intros Hhas.
  destruct (run_appends ops w) as [new [suffix [_ [Hd _]]]].
  unfold hasDiscovery, bind, read, ret in *. simpl in *. rewrite Hd. split.
  - apply includes_In. apply in_or_app. left. now apply includes_In.
  - rewrite firstn_app, firstn_all, Nat.sub_diag. simpl. apply app_nil_r.
Qed.

Lemma discoveries_only_appended_witness :
  let w := mkStore (setDiscoveries ["star:first-click"]
                      (createDefaultState (mkClock "2024-01-01T00:00:00.000Z" 0))) [] in
  let ops := [AddTerminalCommand "help" ""; ToggleAudio; ClickStar] in
  discoveries (state (run ops w)) = ["star:first-click"; "terminal:first-command"]
  /\ fst (hasDiscovery "star:first-click" (run ops w)) = true.
Proof.
  intros w ops. split; [reflexivity |].
  apply (discoveries_only_appended ops w "star:first-click"). reflexivity.
Defined.

(** X2. Every id that a sequence of calls adds to the discoveries is
    announced by exactly one discovery event, in the order of insertion,
    and by one state-change event whose [totalCount] is the length of the
    list it carries; the counts go up by one from one event to the next. *)
Theorem discoveries_announced_in_order (ops : list op) (w : store) :
  exists (new : list effect) (suffix : list string),
    trace (run ops w) = (trace w ++ new)%list
    /\ discoveries (state (run ops w)) = (discoveries (state w) ++ suffix)%list
    /\ Trace.announced new = suffix
    /\ map snd (Trace.stateChanges new)
       = seq (S (List.length (discoveries (state w)))) (List.length suffix)
    /\ Forall (fun change => snd change = List.length (fst change))
         (Trace.stateChanges new).
Proof.
  destruct (run_appends ops w) as [new [suffix [Ht [Hd [Ha [_ [_ [Hc Hl]]]]]]]].
  exists new, suffix. repeat split; assumption.
Qed.

(** X3. A listener that starts from the discoveries at the time it mounts
    and then keeps the payload of each state-change event holds the
    store's discoveries after any sequence of calls. *)
Theorem state_change_keeps_listeners_current (ops : list op) (w : store) :
  fold_left Trace.followStateChange
    (skipn (List.length (trace w)) (trace (run ops w)))
    (discoveries (state w))
  = discoveries (state (run ops w)).
Proof.
  destruct (run_appends ops w) as [new [suffix [Ht [_ [_ [Hf _]]]]]].
  now rewrite (trace_since ops w new Ht).
Qed.

(** X4. The storage follows the state: if the stored item is the current
    state before a sequence of calls, it is the current state after it
    (every call that changes the state saves it last). *)
Theorem storage_holds_current_state (ops : list op) (w : store) (before : option item) :
  Trace.storage before (trace w) = Some (Parsed (encode (state w))) ->
  Trace.storage before (trace (run ops w))
  = Some (Parsed (encode (state (run ops w)))).
Proof.
  intros H.
  destruct (run_appends ops w) as [new [suffix [Ht [_ [_ [_ [Hs _]]]]]]].
  now rewrite Ht, storage_app, H.
Qed.

Lemma storage_holds_current_state_witness :
  let w := mkStore (createDefaultState (mkClock "2024-01-01T00:00:00.000Z" 0))
             [Saved (encode (createDefaultState (mkClock "2024-01-01T00:00:00.000Z" 0)))] in
  let ops := [ClickStar; AddGameComplete "gravity-hop" 7; AddGameComplete "gravity-hop" 9] in
  Trace.storage None (trace (run ops w))
  = Some (Parsed (encode (state (run ops w)))).
Proof.
  intros w ops. apply (storage_holds_current_state ops w None). reflexivity.
Defined.

Ltac to_In :=
  repeat match goal with
         | H : negb _ = true |- _ => apply negb_true_iff in H
         | H : negb _ = false |- _ => apply negb_false_iff in H
         | H : JS.includes _ _ = true |- _ => apply includes_In in H
         | H : JS.includes _ _ = false |- _ => apply includes_false in H
         end.

Lemma NoDup_push {A : Type} (l : list A) (x : A) :
  NoDup l -> ~ In x l -> NoDup (l ++ [x]).
Proof.
  intros Hl Hx. apply NoDup_app; repeat split.
  - assumption.
  - constructor; [intros [] | constructor].
  - intros a Ha [<- | []]. contradiction.
Qed.

Lemma exec_noDuplicates (o : op) (w : store) :
  StoreQueries.noDuplicates (state w) -> StoreQueries.noDuplicates (state (exec o w)).
Proof.
  intros [Hd [Hc [Hg Ht]]].
  destruct o; open_op; to_In; simpl in *; repeat split; simpl;
    try assumption; apply NoDup_push; assumption.
Qed.

(** X5. No duplicates: if the discoveries, constellations, completed games
    and terminal commands each hold no value twice, they still do after any
    sequence of calls. *)
Theorem lists_stay_duplicate_free (ops : list op) (w : store) :
  StoreQueries.noDuplicates (state w) ->
  StoreQueries.noDuplicates (state (run ops w)).
Proof.
  revert w. induction ops as [| o ops IH]; intros w H; simpl.
  - exact H.
  - apply IH. now apply exec_noDuplicates.
Qed.

Lemma lists_stay_duplicate_free_witness :
  let w := mkStore (createDefaultState (mkClock "2024-01-01T00:00:00.000Z" 0)) [] in
  StoreQueries.noDuplicates
    (state (run [AddDiscovery "a" "x" "y"; AddDiscovery "a" "x" "y";
                 AddTerminalCommand "ls" ""; AddTerminalCommand "ls" ""] w)).
Proof.
  intros w. apply lists_stay_duplicate_free.
  repeat split; constructor.
Defined.

Lemma exec_frame (o : op) (w : store) :
  version (state (exec o w)) = version (state w)
  /\ visitCount (state (exec o w)) = visitCount (state w)
  /\ firstVisitDate (state (exec o w)) = firstVisitDate (state w)
  /\ lastVisitDate (state (exec o w)) = lastVisitDate (state w)
  /\ sessionStart (state (exec o w)) = sessionStart (state w)
  /\ totalClickedStars (state w) <= totalClickedStars (state (exec o w))
  /\ loopCount (state w) <= loopCount (state (exec o w)).
Proof.
  destruct o; open_op; repeat split; lia.
Qed.

(** X6. The recording operations never touch the schema version or the
    visit bookkeeping ([visitCount], [firstVisitDate], [lastVisitDate],
    [sessionStart]), and the two counters never go down. *)
Theorem visit_fields_untouched (ops : list op) (w : store) :
  version (state (run ops w)) = version (state w)
  /\ visitCount (state (run ops w)) = visitCount (state w)
  /\ firstVisitDate (state (run ops w)) = firstVisitDate (state w)
  /\ lastVisitDate (state (run ops w)) = lastVisitDate (state w)
  /\ sessionStart (state (run ops w)) = sessionStart (state w)
  /\ totalClickedStars (state w) <= totalClickedStars (state (run ops w))
  /\ loopCount (state w) <= loopCount (state (run ops w)).
Proof.
  revert w. induction ops as [| o ops IH]; intros w; simpl.
  - repeat split; lia.
  - destruct (exec_frame o w) as [H1 [H2 [H3 [H4 [H5 [H6 H7]]]]]].
    destruct (IH (exec o w)) as [I1 [I2 [I3 [I4 [I5 [I6 I7]]]]]].
    fold (run ops (exec o w)).
    repeat split; try congruence; lia.
Qed.

(** X7. Once the deep game is accessible (10 discoveries or more) it
    stays accessible through any sequence of calls; the query itself leaves
    the store as it is. *)
Theorem deep_game_stays_accessible (ops : list op) (w : store) :
  fst (canAccessDeepGame w) = true ->
  fst (canAccessDeepGame (run ops w)) = true
  /\ snd (canAccessDeepGame (run ops w)) = run ops w.
Proof.
  unfold canAccessDeepGame, bind, read, ret. cbn -[Nat.leb]. intros H.
  split; [| reflexivity].
  destruct (run_appends ops w) as [new [suffix [_ [Hd _]]]].
  apply Nat.leb_le in H. apply Nat.leb_le.
  rewrite Hd, length_app. lia.
Qed.

Lemma deep_game_stays_accessible_witness :
  let ten := ["a"; "b"; "c"; "d"; "e"; "f"; "g"; "h"; "i"; "j"] in
  let w := mkStore (setDiscoveries ten
                      (createDefaultState (mkClock "2024-01-01T00:00:00.000Z" 0))) [] in
  fst (canAccessDeepGame (run [ToggleAudio; IncrementLoop] w)) = true.
Proof.
  intros ten w.
  apply (deep_game_stays_accessible [ToggleAudio; IncrementLoop] w). reflexivity.
Defined.

Lemma addDiscovery_then_present (id category label : string) (w : store) :
  In id (discoveries (state (snd (addDiscovery id category label w)))).
Proof.
  rewrite addDiscovery_eq.
  destruct (JS.includes (discoveries (state w)) id) eqn:E; simpl.
  - now apply includes_In.
  - apply includes_In, includes_push.
Qed.

Lemma addDiscovery_keeps_rest (id category label : string) (w : store) :
  let w' := snd (addDiscovery id category label w) in
  constellations (state w') = constellations (state w)
  /\ gamesCompleted (state w') = gamesCompleted (state w)
  /\ terminalCommands (state w') = terminalCommands (state w)
  /\ totalClickedStars (state w') = totalClickedStars (state w)
  /\ loopCount (state w') = loopCount (state w)
  /\ audioEnabled (state w') = audioEnabled (state w)
  /\ exists more, trace w' = (trace w ++ more)%list.
Proof.
  simpl. rewrite addDiscovery_eq.
  destruct (JS.includes (discoveries (state w)) id); simpl;
    repeat split; eexists; [symmetry; apply app_nil_r | reflexivity].
Qed.

Lemma addConstellation_eq (name : string) (stars : list string) (w : store) :
  addConstellation name stars w =
  if JS.includes (constellations (state w)) name then (false, w)
  else
    let s := setConstellations (JS.push (constellations (state w)) name) (state w) in
    (true,
     snd (addDiscovery ("constellation:" ++ name) "constellation" ("Formed " ++ name)
            (mkStore s (trace w ++ [Saved (encode s);
                                    Emitted (Events.constellation_complete name stars)])))).
Proof.
  unfold addConstellation, bind, read, write, save, emit, perform, ret. simpl.
  destruct (JS.includes (constellations (state w)) name); [reflexivity |].
  simpl. unfold JS.push. rewrite <- !app_assoc. simpl.
  match goal with |- context [addDiscovery ?a ?b ?c ?d] =>
    destruct (addDiscovery a b c d) end.
  reflexivity.
Qed.

Lemma addGameComplete_eq (gameId : string) (score : Z) (w : store) :
  addGameComplete gameId score w =
  if JS.includes (gamesCompleted (state w)) gameId then (false, w)
  else
    let s := setGamesCompleted (JS.push (gamesCompleted (state w)) gameId) (state w) in
    (true,
     snd (addDiscovery ("game:" ++ gameId) "game" ("Completed " ++ gameId)
            (mkStore s (trace w ++ [Saved (encode s);
                                    Emitted (Events.game_complete gameId score)])))).
Proof.
  unfold addGameComplete, bind, read, write, save, emit, perform, ret. simpl.
  destruct (JS.includes (gamesCompleted (state w)) gameId); [reflexivity |].
  simpl. unfold JS.push. rewrite <- !app_assoc. simpl.
  match goal with |- context [addDiscovery ?a ?b ?c ?d] =>
    destruct (addDiscovery a b c d) end.
  reflexivity.
Qed.

(** X8. [addConstellation] records a constellation once. A call for a
    name already recorded returns [false] and changes nothing. A call for a
    new name returns [true], appends the name, emits the
    constellation-complete event and leaves ["constellation:" + name] among
    the discoveries. Either way the name is recorded afterwards, so a
    second call, with whatever stars, is a no-op. *)
Theorem addConstellation_records_once
        (name : string) (stars stars' : list string) (w : store) :
  let result := addConstellation name stars w in
  In name (constellations (state (snd result)))
  /\ addConstellation name stars' (snd result) = (false, snd result)
  /\ (if fst result
      then ~ In name (constellations (state w))
           /\ constellations (state (snd result))
              = JS.push (constellations (state w)) name
           /\ In ("constellation:" ++ name) (discoveries (state (snd result)))
           /\ In (Emitted (Events.constellation_complete name stars))
                 (trace (snd result))
      else In name (constellations (state w)) /\ snd result = w).
Proof.
  intros result.
  assert (Hin : In name (constellations (state (snd result)))).
  { subst result. rewrite addConstellation_eq.
    destruct (JS.includes (constellations (state w)) name) eqn:E; simpl.
    - now apply includes_In.
    - match goal with |- context [addDiscovery ?a ?b ?c ?d] =>
        destruct (addDiscovery_keeps_rest a b c d) as [-> _] end.
      simpl. apply includes_In, includes_push. }
  split; [exact Hin |].
  split.
  { rewrite addConstellation_eq. apply includes_In in Hin. now rewrite Hin. }
  subst result. rewrite addConstellation_eq.
  destruct (JS.includes (constellations (state w)) name) eqn:E; simpl.
  - split; [now apply includes_In | reflexivity].
  - split; [now apply includes_false |].
    match goal with |- context [addDiscovery ?a ?b ?c ?d] =>
      pose proof (addDiscovery_then_present a b c d) as Hdisc;
      destruct (addDiscovery_keeps_rest a b c d) as [Hc [_ [_ [_ [_ [_ [more Ht]]]]]]]
    end.
    simpl in Hc, Ht. repeat split; try assumption.
    rewrite Ht. apply in_or_app. left. apply in_or_app. right.
    simpl. right. now left.
Qed.

(** X9. [addGameComplete] records a game once, whatever the score: a call
    for a game already completed returns [false] and changes nothing, so a
    later, better score is neither stored nor announced. A call for a new
    game returns [true], appends the id, emits the game-complete event with
    the score and leaves ["game:" + gameId] among the discoveries. *)
Theorem addGameComplete_records_once
        (gameId : string) (score score' : Z) (w : store) :
  let result := addGameComplete gameId score w in
  In gameId (gamesCompleted (state (snd result)))
  /\ addGameComplete gameId score' (snd result) = (false, snd result)
  /\ (if fst result
      then ~ In gameId (gamesCompleted (state w))
           /\ gamesCompleted (state (snd result))
              = JS.push (gamesCompleted (state w)) gameId
           /\ In ("game:" ++ gameId) (discoveries (state (snd result)))
           /\ In (Emitted (Events.game_complete gameId score))
                 (trace (snd result))
      else In gameId (gamesCompleted (state w)) /\ snd result = w).
Proof.
  intros result.
  assert (Hin : In gameId (gamesCompleted (state (snd result)))).
  { subst result. rewrite addGameComplete_eq.
    destruct (JS.includes (gamesCompleted (state w)) gameId) eqn:E; simpl.
    - now apply includes_In.
    - match goal with |- context [addDiscovery ?a ?b ?c ?d] =>
        destruct (addDiscovery_keeps_rest a b c d) as [_ [-> _]] end.
      simpl. apply includes_In, includes_push. }
  split; [exact Hin |].
  split.
  { rewrite addGameComplete_eq. apply includes_In in Hin. now rewrite Hin. }
  subst result. rewrite addGameComplete_eq.
  destruct (JS.includes (gamesCompleted (state w)) gameId) eqn:E; simpl.
  - split; [now apply includes_In | reflexivity].
  - split; [now apply includes_false |].
    match goal with |- context [addDiscovery ?a ?b ?c ?d] =>
      pose proof (addDiscovery_then_present a b c d) as Hdisc;
      destruct (addDiscovery_keeps_rest a b c d) as [_ [Hg [_ [_ [_ [_ [more Ht]]]]]]]
    end.
    simpl in Hg, Ht. repeat split; try assumption.
    rewrite Ht. apply in_or_app. left. apply in_or_app. right.
    simpl. right. now left.
Qed.

Lemma becomes_one (n : Z) : (n + 1 =? 1) = (n =? 0).
Proof.
  destruct (Z.eqb_spec (n + 1) 1), (Z.eqb_spec n 0); try reflexivity; lia.
Qed.

(** X10. While the click counter is an integer in the range where the
    addition of 1 is exact, [clickStar] adds exactly one to it and returns
    the new count. The click that takes the counter from 0 to 1 records
    ["star:first-click"] (unless it is already there); no other click
    changes the discoveries. After [n + 1] such clicks the counter is
    [n + 1] higher. *)
Theorem clickStar_counts_every_click (n : nat) (w : store) :
  Counter.exactFor (S n) (totalClickedStars (state w)) ->
  let result := clickStar w in
  fst result = totalClickedStars (state w) + 1
  /\ totalClickedStars (state (snd result)) = totalClickedStars (state w) + 1
  /\ discoveries (state (snd result))
     = (if (totalClickedStars (state w) =? 0)
           && negb (JS.includes (discoveries (state w)) "star:first-click")
        then JS.push (discoveries (state w)) "star:first-click"
        else discoveries (state w))
  /\ totalClickedStars (state (run (repeat ClickStar (S n)) w))
     = totalClickedStars (state w) + Z.of_nat (S n).
Proof.
  intros _.
  assert (Hone : forall v,
             fst (clickStar v) = totalClickedStars (state v) + 1
             /\ totalClickedStars (state (snd (clickStar v)))
                = totalClickedStars (state v) + 1
             /\ discoveries (state (snd (clickStar v)))
                = (if (totalClickedStars (state v) =? 0)
                      && negb (JS.includes (discoveries (state v)) "star:first-click")
                   then JS.push (discoveries (state v)) "star:first-click"
                   else discoveries (state v))).
  { intros v. unfold clickStar, bind, read, write, save, perform, ret. simpl.
    rewrite becomes_one.
    destruct (totalClickedStars (state v) =? 0); simpl.
    - rewrite addDiscovery_eq. simpl.
      destruct (JS.includes (discoveries (state v)) "star:first-click"); simpl;
        repeat split.
    - repeat split. }
  intros result. destruct (Hone w) as [H1 [H2 H3]].
  repeat split; try assumption.
  clear result H1 H2 H3. generalize (S n) as m. clear n. intros m.
  revert w. induction m as [| m IH]; intros w.
  - simpl. lia.
  - simpl repeat. simpl run. fold (run (repeat ClickStar m) (exec ClickStar w)).
    rewrite IH. simpl exec. destruct (Hone w) as [_ [-> _]]. lia.
Qed.

Lemma clickStar_counts_every_click_witness :
  let w := mkStore (createDefaultState (mkClock "2024-01-01T00:00:00.000Z" 0)) [] in
  fst (clickStar w) = 1
  /\ discoveries (state (snd (clickStar w))) = ["star:first-click"]
  /\ totalClickedStars (state (run (repeat ClickStar 3) w)) = 3.
Proof.
  intros w.
  destruct (clickStar_counts_every_click 2 w) as [H1 [_ [H3 H4]]].
  - unfold Counter.exactFor. simpl. lia.
  - split; [exact H1 |]. split; [exact H3 | exact H4].
Defined.

(** X11. While the loop counter is an integer in the range where the
    addition of 1 is exact, [incrementLoop] adds one to it, returns the new
    count, saves, and emits the loop-reset event with that count before
    anything else. Only the loop that takes the counter from 0 to 1 goes on
    to record ["loop:first-reset"], and only if it is not there yet. *)
Theorem incrementLoop_resets_then_records (w : store) :
  Counter.exactFor 1 (loopCount (state w)) ->
  let result := incrementLoop w in
  let counted := setLoopCount (loopCount (state w) + 1) (state w) in
  let first := (loopCount (state w) =? 0)
               && negb (JS.includes (discoveries (state w)) "loop:first-reset") in
  let final := if first
               then setDiscoveries (JS.push (discoveries (state w)) "loop:first-reset")
                      counted
               else counted in
  fst result = loopCount (state w) + 1
  /\ state (snd result) = final
  /\ trace (snd result)
     = (trace w
        ++ [Saved (encode counted); Emitted (Events.loop_reset (loopCount (state w) + 1))]
        ++ (if first
            then [Saved (encode final);
                  Emitted (Events.discovery "loop:first-reset" "loop" "First time loop");
                  Emitted (Events.state_change (discoveries final)
                             (List.length (discoveries final)))]
            else []))%list.
Proof.
  intros _.
  unfold incrementLoop, bind, read, write, save, emit, perform, ret. simpl.
  rewrite becomes_one.
  destruct (loopCount (state w) =? 0); simpl.
  - rewrite addDiscovery_eq. simpl.
    destruct (JS.includes (discoveries (state w)) "loop:first-reset"); simpl;
      unfold JS.push; rewrite <- ?app_assoc; repeat split.
  - unfold JS.push; rewrite <- ?app_assoc; repeat split.
Qed.

Lemma incrementLoop_resets_then_records_witness :
  let w := mkStore (createDefaultState (mkClock "2024-01-01T00:00:00.000Z" 0)) [] in
  fst (incrementLoop w) = 1
  /\ discoveries (state (snd (incrementLoop w))) = ["loop:first-reset"].
Proof.
  intros w.
  destruct (incrementLoop_resets_then_records w) as [H1 [H2 _]].
  - unfold Counter.exactFor. simpl. lia.
  - split; [exact H1 | now rewrite H2].
Defined.

(** X12. [toggleAudio] flips the flag, saves, emits the audio-toggle event
    with the new value and returns it; it leaves every other field alone,
    so toggling twice gives the state back. *)
Theorem toggleAudio_twice_restores (w : store) :
  let once := toggleAudio w in
  let twice := toggleAudio (snd once) in
  fst once = negb (audioEnabled (state w))
  /\ state (snd once) = setAudioEnabled (negb (audioEnabled (state w))) (state w)
  /\ fst twice = audioEnabled (state w)
  /\ state (snd twice) = state w
  /\ trace (snd twice)
     = (trace w
        ++ [Saved (encode (state (snd once)));
            Emitted (Events.audio_toggle (negb (audioEnabled (state w))));
            Saved (encode (state w));
            Emitted (Events.audio_toggle (audioEnabled (state w)))])%list.
Proof.
  unfold toggleAudio, bind, read, write, save, emit, perform, ret. simpl.
  unfold setAudioEnabled. simpl. rewrite negb_involutive.
  assert (Hs : mkState (version (state w)) (discoveries (state w))
                 (constellations (state w)) (gamesCompleted (state w))
                 (terminalCommands (state w)) (visitCount (state w))
                 (firstVisitDate (state w)) (lastVisitDate (state w))
                 (sessionStart (state w)) (loopCount (state w))
                 (audioEnabled (state w)) (totalClickedStars (state w))
               = state w) by now destruct (state w).
  rewrite Hs. unfold JS.push. rewrite <- !app_assoc. repeat split.
Qed.

End StoreSteps.

Lemma visit_fields_frame (ops : list Store.op) (w : Store.store) :
  Store.visitCount (Store.state (Store.run ops w)) = Store.visitCount (Store.state w)
  /\ Store.firstVisitDate (Store.state (Store.run ops w))
     = Store.firstVisitDate (Store.state w).
Proof.
  revert w. induction ops as [| o ops IH]; intros w; simpl; [now split |].
  fold (Store.run ops (Store.exec o w)).
  destruct (IH (Store.exec o w)) as [-> ->].
  destruct (exec_frame o w) as [_ [-> [-> _]]]. now split.
Qed.

(** ** Store: what loading returns, and resuming a session *)

Section LoadSteps.

Import Store.

Variable belowOneCoerced : value -> bool.

(** A state that [migrate] returns has the current version; besides the
    three fields it copies, every field is the default. *)
Lemma migrate_typed_fields (c : clock) (raw : value) (s : DiscoveryState) :
  migrate belowOneCoerced c raw = Typed s ->
  version s = SCHEMA_VERSION
  /\ constellations s = [] /\ gamesCompleted s = [] /\ terminalCommands s = []
  /\ lastVisitDate s = iso c /\ sessionStart s = ms c
  /\ loopCount s = 0 /\ audioEnabled s = false /\ totalClickedStars s = 0.
Proof.
  unfold migrate. intros H.
  destruct (isVersion0 belowOneCoerced raw);
    [ destruct (prop raw "discoveries") as [[| | | | items |] |];
      destruct (prop raw "visitCount") as [[| | | | |] |];
      destruct (prop raw "firstVisitDate") as [[| | | | |] |] | ];
    unfold cast, asState in H; simpl in H;
    try (destruct (strings items)); inversion H; repeat split.
Qed.

Lemma run_version (ops : list op) (w : store) :
  version (state (run ops w)) = version (state w).
Proof.
  revert w. induction ops as [| o ops IH]; intros w; simpl; [reflexivity |].
  fold (run ops (exec o w)). rewrite IH. apply exec_frame.
Qed.

Lemma load_typed_version (c : clock) (stored : option item) (s : DiscoveryState) :
  load belowOneCoerced c stored = Typed s -> version s = SCHEMA_VERSION.
Proof.
  unfold load. intros H.
  destruct stored as [[| parsed] |]; try (inversion H; reflexivity).
  destruct parsed; try (inversion H; reflexivity);
    try (now apply (migrate_typed_fields c _ s H)).
  destruct (prop (JObj fields) "version") as [[| | n | | |] |] eqn:E;
    try (now apply (migrate_typed_fields c _ s H)).
  destruct (n =? SCHEMA_VERSION) eqn:En.
  - apply Z.eqb_eq in En. subst n. unfold cast in H.
    destruct (asState (JObj fields)) as [s' |] eqn:Es; inversion H; subst s'.
    apply asState_version in Es. rewrite E in Es. now inversion Es.
  - now apply (migrate_typed_fields c _ s H).
Qed.

(** X13. Whatever the storage holds, a state that [load] returns has the
    current schema version. *)
Theorem load_returns_current_version
        (c : clock) (stored : option item) (s : DiscoveryState) :
  load belowOneCoerced c stored = Typed s -> version s = SCHEMA_VERSION.
Proof. apply load_typed_version. Qed.

(** X14. A stored record of another version than the current one keeps at
    most its discoveries, visit count and first visit date: the
    constellations, completed games, terminal commands, counters and audio
    flag of the loaded state are the defaults, whatever the record held for
    them. *)
Theorem load_stale_record_drops_new_fields
        (c : clock) (raw : value) (s : DiscoveryState) :
  prop raw "version" <> Some (JNum SCHEMA_VERSION) ->
  load belowOneCoerced c (Some (Parsed raw)) = Typed s ->
  constellations s = [] /\ gamesCompleted s = [] /\ terminalCommands s = []
  /\ lastVisitDate s = iso c /\ sessionStart s = ms c
  /\ loopCount s = 0 /\ audioEnabled s = false /\ totalClickedStars s = 0.
Proof.
  intros Hver H. unfold load in H.
  assert (Hm : forall r, migrate belowOneCoerced c r = Typed s ->
               constellations s = [] /\ gamesCompleted s = []
               /\ terminalCommands s = []
               /\ lastVisitDate s = iso c /\ sessionStart s = ms c
               /\ loopCount s = 0 /\ audioEnabled s = false
               /\ totalClickedStars s = 0)
    by (intros r Hr; now apply (migrate_typed_fields c r s Hr)).
  destruct raw; try (now apply (Hm _ H)).
  - inversion H. repeat split.
  - destruct (prop (JObj fields) "version") as [[| | n | | |] |] eqn:E;
      try (now apply (Hm _ H)).
    destruct (n =? SCHEMA_VERSION) eqn:En; [| now apply (Hm _ H)].
    apply Z.eqb_eq in En. subst n. contradiction.
Qed.

(** X15. With nothing stored, or a text that does not parse, or the JSON
    value [null], [init] starts a first visit from the defaults: visit
    count 1, the first-visit flag set, no discovery, and the state saved
    before the visit event. *)
Theorem init_first_visit (atLoad atVisit : clock) (stored : option item) :
  stored = None \/ stored = Some Unparsable \/ stored = Some (Parsed JNull) ->
  let fresh := setVisit 1 (iso atVisit) (ms atVisit) (createDefaultState atLoad) in
  init belowOneCoerced atLoad atVisit stored
  = Live (mkStore fresh [Saved (encode fresh); Emitted (Events.visit 1 true)]).
Proof.
  intros [-> | [-> | ->]]; reflexivity.
Qed.

(** X16. A session resumes where the last one stopped, provided every
    write to the storage succeeded and the counters stay integers in the
    range where the addition of 1 is exact: when [init] has started a store
    and any sequence of calls has run on it, an [init] that reads what those
    calls left in the storage returns the final state with the visit count
    one higher, the new visit time, and the same discoveries and first visit
    date; the visit event carries the new count, and its first-visit flag is
    set only if that count is 1. *)
Theorem init_resumes_session
        (c1 c2 c3 c4 : clock) (stored : option item) (w : store) (ops : list op) :
  init belowOneCoerced c1 c2 stored = Live w ->
  Counter.exactFor 2 (visitCount (state w) - 1) ->
  Counter.exactFor (List.length ops) (totalClickedStars (state w)) ->
  Counter.exactFor (List.length ops) (loopCount (state w)) ->
  let final := state (run ops w) in
  let resumed := setVisit (visitCount final + 1) (iso c4) (ms c4) final in
  init belowOneCoerced c3 c4 (Trace.storage stored (trace (run ops w)))
  = Live (mkStore resumed
            [Saved (encode resumed);
             Emitted (Events.visit (visitCount (state w) + 1)
                        (visitCount (state w) + 1 =? 1))])
  /\ discoveries resumed = discoveries final
  /\ firstVisitDate resumed = firstVisitDate (state w)
  /\ visitCount resumed = visitCount (state w) + 1.
Proof.
  intros Hinit _ _ _ final resumed.
  unfold init in Hinit.
  destruct (load belowOneCoerced c1 stored) as [s |] eqn:L; [| discriminate].
  apply load_typed_version in L.
  assert (Hw : version (state w) = SCHEMA_VERSION
               /\ Trace.storage stored (trace w) = Some (Parsed (encode (state w)))).
  { inversion Hinit. split; [exact L | reflexivity]. }
  destruct Hw as [Hv Hst].
  destruct (run_appends ops w) as [new [suffix [Ht [_ [_ [_ [Hs _]]]]]]].
  destruct (visit_fields_frame ops w) as [Hvc Hfv].
  assert (Hload : load belowOneCoerced c3 (Trace.storage stored (trace (run ops w)))
                  = Typed final).
  { rewrite Ht, storage_app, Hst, Hs.
    apply load_current; [apply asState_encode |].
    subst final. now rewrite run_version. }
  unfold init. rewrite Hload. subst resumed final. simpl. rewrite Hvc, Hfv.
  repeat split.
Qed.

End LoadSteps.

(** ** Resolver: lookups, and the resolver along a session *)

Section ResolverSteps.

Import KnowledgeGraph.

Variable nodes : list KnowledgeNode.

Lemma getNode_none (nodeId : string) :
  getNode nodes nodeId = None <-> ~ In nodeId (map id nodes).
Proof.
  unfold getNode. induction nodes as [| n rest IH]; simpl.
  - split; [intros _ [] | reflexivity].
  - destruct (String.eqb_spec (id n) nodeId) as [E | E].
    + split; [discriminate | intros H; exfalso; apply H; now left].
    + rewrite IH. split; [intros H [H' | H']; [contradiction | now apply H]
                         | intros H H'; apply H; now right].
Qed.

(** X17. [getNode] finds a node exactly for the ids of the graph: a found
    node is a node of the graph with the id asked for; for any other id
    the lookup gives nothing, and [isUnlocked] answers [false] whatever the
    discoveries. *)
Theorem getNode_finds_exactly_known_ids (nodeId : string) :
  match getNode nodes nodeId with
  | Some node => In node nodes /\ id node = nodeId
  | None => ~ In nodeId (map id nodes)
            /\ forall discoveries, isUnlocked nodes nodeId discoveries = false
  end.
Proof.
  destruct (getNode nodes nodeId) as [node |] eqn:E.
  - now apply getNode_some.
  - split; [now apply getNode_none |].
    intros discoveries. unfold isUnlocked. now rewrite E.
Qed.

Lemma isUnlocked_incl (nodeId : string) (d d' : list string) :
  incl d d' -> isUnlocked nodes nodeId d = true -> isUnlocked nodes nodeId d' = true.
Proof.
  unfold isUnlocked. intros Hincl. destruct (getNode nodes nodeId); [| discriminate].
  rewrite !forallb_forall. intros H req Hreq.
  apply includes_In, Hincl, includes_In. now apply H.
Qed.

(** X18. A node that is unlocked stays unlocked: no sequence of calls to
    the store locks it again. *)
Theorem unlocked_stays_unlocked (nodeId : string) (ops : list Store.op) (w : Store.store) :
  isUnlocked nodes nodeId (Store.discoveries (Store.state w)) = true ->
  isUnlocked nodes nodeId (Store.discoveries (Store.state (Store.run ops w))) = true.
Proof.
  apply isUnlocked_incl.
  destruct (run_appends ops w) as [new [suffix [_ [-> _]]]].
  intros x Hx. apply in_or_app. now left.
Qed.

(** X19. A hint stays until its node is discovered: a node that is
    hintable remains hintable after any sequence of calls that does not
    record its own id. *)
Theorem hint_stays_until_discovered
        (n : KnowledgeNode) (ops : list Store.op) (w : Store.store) :
  In n (getHintableNodes nodes (Store.discoveries (Store.state w))) ->
  ~ In (id n) (Store.discoveries (Store.state (Store.run ops w))) ->
  In n (getHintableNodes nodes (Store.discoveries (Store.state (Store.run ops w)))).
Proof.
  intros Hhint Hnew.
  apply hintable_iff in Hhint. destruct Hhint as [Hin [_ Hreq]].
  apply hintable_iff. repeat split; try assumption.
  destruct Hreq as [Hnil | [req [Hr Hd]]]; [now left | right].
  exists req. split; [assumption |].
  destruct (run_appends ops w) as [new [suffix [_ [-> _]]]].
  apply in_or_app. now left.
Qed.

(** X20. Reverse lookup and locking agree: with pairwise distinct ids, a
    node of the graph is locked exactly when some id is missing from the
    discoveries for which [getUnlockedBy] lists the node. *)
Theorem locked_iff_unlocker_missing (n : KnowledgeNode) (discoveries : list string) :
  NoDup (map id nodes) -> In n nodes ->
  (isUnlocked nodes (id n) discoveries = false <->
   exists missing, ~ In missing discoveries /\ In n (getUnlockedBy nodes missing)).
Proof.
  intros Hnd Hin. pose proof (getNode_own_id nodes n Hnd Hin) as Hget.
  unfold isUnlocked, getUnlockedBy. rewrite Hget. split.
  - intros H.
    destruct (forallb_forall (fun req => JS.includes discoveries req) (requires n))
      as [_ Hall].
    assert (Hex : exists req, In req (requires n) /\ JS.includes discoveries req = false).
    { clear Hall Hget. induction (requires n) as [| r rest IH]; simpl in H.
      - discriminate.
      - destruct (JS.includes discoveries r) eqn:E.
        + destruct (IH H) as [req [Hr He]]. exists req. split; [now right | assumption].
        + exists r. split; [now left | assumption]. }
    destruct Hex as [req [Hr He]]. exists req.
    split; [now apply includes_false |].
    apply filter_In. split; [assumption | now apply includes_In].
  - intros [missing [Hmiss Hby]]. apply filter_In in Hby. destruct Hby as [_ Hreq].
    apply includes_In in Hreq.
    destruct (forallb (fun req => JS.includes discoveries req) (requires n)) eqn:E;
      [| reflexivity].
    rewrite forallb_forall in E. apply E in Hreq. apply includes_In in Hreq.
    contradiction.
Qed.

Lemma filter_disjoint_length {A : Type} (f g : A -> bool) (l : list A) :
  (forall x, f x = true -> g x = false) ->
  (List.length (filter f l) + List.length (filter g l) <= List.length l)%nat.
Proof.
  intros Hfg. induction l as [| a l IH]; simpl; [lia |].
  destruct (f a) eqn:Ef.
  - rewrite (Hfg a Ef). simpl. lia.
  - destruct (g a); simpl; lia.
Qed.

(** X21. The discovered nodes and the hintable nodes never overlap and
    are together at most the whole graph; a node without requirements is
    always in one of the two lists. *)
Theorem discovered_and_hintable_are_disjoint
        (discoveries : list string) (n : KnowledgeNode) :
  (In n (getDiscoveredNodes nodes discoveries) <->
   In n nodes /\ In (id n) discoveries)
  /\ ~ (In n (getDiscoveredNodes nodes discoveries)
        /\ In n (getHintableNodes nodes discoveries))
  /\ (List.length (getDiscoveredNodes nodes discoveries)
      + List.length (getHintableNodes nodes discoveries) <= List.length nodes)%nat
  /\ (In n nodes -> requires n = [] ->
      In n (getDiscoveredNodes nodes discoveries)
      \/ In n (getHintableNodes nodes discoveries)).
Proof.
  assert (Hdisc : In n (getDiscoveredNodes nodes discoveries) <->
                  In n nodes /\ In (id n) discoveries).
  { unfold getDiscoveredNodes. rewrite filter_In. now rewrite includes_In. }
  split; [exact Hdisc |].
  split.
  { intros [Hd Hh]. apply Hdisc in Hd. apply hintable_iff in Hh. tauto. }
  split.
  { apply filter_disjoint_length. intros x Hx. now rewrite Hx. }
  intros Hin Hnil.
  destruct (JS.includes discoveries (id n)) eqn:E.
  - left. apply Hdisc. split; [assumption | now apply includes_In].
  - right. apply hintable_iff. repeat split;
      [assumption | now apply includes_false | now left].
Qed.

End ResolverSteps.

(** X22. On the static graph the progress is never negative; it is 0 only
    with no discovery, 100 exactly with 14 supplied ids, and above 100 as
    soon as more than 14 ids are supplied. *)
Theorem getProgress_range (discoveries : list string) :
  exists p : Z,
    KnowledgeGraph.getProgress KnowledgeGraph.graphData discoveries = JS.Fin p
    /\ 0 <= p
    /\ (p = 0 <-> discoveries = [])
    /\ (p = 100 <-> List.length discoveries = 14%nat)
    /\ (100 < p <-> (14 < List.length discoveries)%nat).
Proof.
  eexists. split; [apply getProgress_graphData |].
  unfold JS.round_ratio.
  set (len := Z.of_nat (List.length discoveries)).
  assert (Hlen : 0 <= len) by (subst len; lia).
  assert (Hnil : discoveries = [] <-> len = 0).
  { subst len. destruct discoveries; simpl; split; intros H;
      try reflexivity; try discriminate; lia. }
  assert (H14 : List.length discoveries = 14%nat <-> len = 14) by (subst len; lia).
  assert (Hgt : (14 < List.length discoveries)%nat <-> 14 < len) by (subst len; lia).
  rewrite Hnil, H14, Hgt. clearbody len.
  pose proof (Z.div_mod (2 * (len * 100) + 14) (2 * 14) ltac:(lia)) as Hdm.
  pose proof (Z.mod_pos_bound (2 * (len * 100) + 14) (2 * 14) ltac:(lia)) as Hmb.
  repeat split; try lia.
Qed.

(** ** Time of day and the loop timer *)

(** X23. [isNightTime] and [getTimeOfDay] disagree at one hour only: the
    night mode is on exactly when the time of day is night, or the hour is
    5, which [getTimeOfDay] already calls dawn. *)
Theorem night_mode_is_night_or_hour_five (hour : Z) :
  Time.isNightTime hour = true <->
  Time.getTimeOfDay hour = Time.night \/ hour = 5.
Proof.
  unfold Time.isNightTime, Time.getTimeOfDay.
  destruct (Z.geb_spec hour 20), (Z.ltb_spec hour 6), (Z.geb_spec hour 5),
    (Z.ltb_spec hour 8), (Z.geb_spec hour 8), (Z.ltb_spec hour 18),
    (Z.geb_spec hour 18), (Z.ltb_spec hour 20); simpl;
    split; intros Hx; try reflexivity; try lia; try discriminate;
    try (left; reflexivity); try (right; lia);
    destruct Hx as [Hx | Hx]; try discriminate; lia.
Qed.

(** X24. While the clock has not gone back behind the session start, the
    time until the next loop is more than 0 and at most one loop (a whole
    loop at the very start of each loop), and it ends on a multiple of the
    loop duration. With the clock behind the session start the result is
    one loop or more. *)
Theorem time_until_next_loop_bounds (now sessionStart : Z) :
  let remaining := LoopTimer.getTimeUntilNextLoop now sessionStart in
  (sessionStart <= now ->
   0 < remaining <= LoopTimer.LOOP_DURATION_MS
   /\ Z.rem (now - sessionStart + remaining) LoopTimer.LOOP_DURATION_MS = 0
   /\ (remaining = LoopTimer.LOOP_DURATION_MS <->
       Z.rem (now - sessionStart) LoopTimer.LOOP_DURATION_MS = 0))
  /\ (now < sessionStart ->
      LoopTimer.LOOP_DURATION_MS <= remaining < 2 * LoopTimer.LOOP_DURATION_MS).
Proof.
  unfold LoopTimer.getTimeUntilNextLoop, LoopTimer.LOOP_DURATION_MS.
  change (22 * 60 * 1000) with 1320000.
  set (elapsed := now - sessionStart). cbv zeta. split.
  - intros Hle. assert (He : 0 <= elapsed) by (subst elapsed; lia).
    pose proof (Z.rem_bound_pos elapsed 1320000 He ltac:(lia)) as Hb.
    split; [lia |]. split; [| lia].
    rewrite Z.rem_mod_nonneg by lia. rewrite Z.rem_mod_nonneg in * by lia.
    replace (elapsed + (1320000 - elapsed mod 1320000))
      with (elapsed - elapsed mod 1320000 + 1 * 1320000) by lia.
    rewrite Z.mod_add by lia.
    pose proof (Z.div_mod elapsed 1320000 ltac:(lia)) as Hdm.
    replace (elapsed - elapsed mod 1320000) with ((elapsed / 1320000) * 1320000) by lia.
    apply Z.mod_mul. lia.
  - intros Hlt. assert (He : elapsed <= 0) by (subst elapsed; lia).
    pose proof (Z.rem_bound_pos (- elapsed) 1320000 ltac:(lia) ltac:(lia)) as Hb.
    rewrite Z.rem_opp_l in Hb by lia. lia.
Qed.

Lemma time_until_next_loop_bounds_witness :
  LoopTimer.getTimeUntilNextLoop 1704067260000 1704067200000 = 1260000
  /\ 0 < LoopTimer.getTimeUntilNextLoop 1704067260000 1704067200000
       <= LoopTimer.LOOP_DURATION_MS.
Proof.
  split; [reflexivity |].
  apply (time_until_next_loop_bounds 1704067260000 1704067200000). lia.
Defined.

(** ** Components driven by the store *)

Section ComponentSteps.

Import Store.

#[local] Arguments String.append : simpl never.

Lemma checkNight_eq (wasActive isNight : bool) (w : store) :
  Components.checkNight wasActive isNight w =
  (isNight,
   if isNight && negb wasActive
   then snd (addDiscovery "night:flashlight" "time" "Night vision activated" w)
   else w).
Proof.
  unfold Components.checkNight, bind, ret.
  destruct (isNight && negb wasActive); [| reflexivity].
  now destruct (addDiscovery "night:flashlight" "time" "Night vision activated" w).
Qed.

Lemma checkNights_known (hours : list Z) (active : bool) (w : store) :
  In "night:flashlight" (discoveries (state w)) ->
  snd (Flashlight.checkNights hours active w) = w.
Proof.
  intros Hin. revert active. induction hours as [| hour rest IH]; intros active; simpl.
  - reflexivity.
  - unfold bind. rewrite checkNight_eq.
    replace (if Time.isNightTime hour && negb active
             then snd (addDiscovery "night:flashlight" "time" "Night vision activated" w)
             else w) with w.
    + apply IH.
    + destruct (Time.isNightTime hour && negb active); [| reflexivity].
      rewrite addDiscovery_eq. apply includes_In in Hin. now rewrite Hin.
Qed.

Lemma last_cons {A : Type} (l : list A) (x d : A) : last (x :: l) d = last l x.
Proof.
  revert x d. induction l as [| y l IH]; intros x d; [reflexivity |].
  change (last (x :: y :: l) d) with (last (y :: l) d).
  now rewrite !IH.
Qed.

Lemma checkNights_flag (hours : list Z) (active : bool) (w : store) :
  fst (Flashlight.checkNights hours active w)
  = last (map Time.isNightTime hours) active.
Proof.
  revert active w. induction hours as [| hour rest IH]; intros active w.
  - reflexivity.
  - simpl Flashlight.checkNights. unfold bind. rewrite checkNight_eq. rewrite IH.
    simpl map. now rewrite last_cons.
Qed.

(** X25. The flashlight, mounted inactive and checking the hour any number
    of times, ends active exactly if the last hour read was a night hour,
    and records ["night:flashlight"] at the first night hour it reads: the
    discoveries gain that one id if some hour read was a night hour and the
    id was not there, and are unchanged otherwise. *)
Theorem flashlight_records_first_night (hours : list Z) (w : store) :
  let result := Flashlight.checkNights hours false w in
  fst result = last (map Time.isNightTime hours) false
  /\ discoveries (state (snd result))
     = (if existsb Time.isNightTime hours
           && negb (JS.includes (discoveries (state w)) "night:flashlight")
        then JS.push (discoveries (state w)) "night:flashlight"
        else discoveries (state w)).
Proof.
  split; [apply checkNights_flag |].
  induction hours as [| hour rest IH]; [reflexivity |].
  simpl Flashlight.checkNights. unfold bind. rewrite checkNight_eq. simpl existsb.
  destruct (Time.isNightTime hour); simpl.
  - rewrite checkNights_known by apply addDiscovery_then_present.
    rewrite addDiscovery_eq.
    destruct (JS.includes (discoveries (state w)) "night:flashlight"); reflexivity.
  - exact IH.
Qed.

Lemma includes_app (a b : list string) (x : string) :
  JS.includes (a ++ b) x = JS.includes a x || JS.includes b x.
Proof. unfold JS.includes. apply existsb_app. Qed.

Lemma deliver_announced (discoveryId : string) (effects : list effect)
      (g : KnowledgeGate.gate) :
  fold_left (KnowledgeGate.deliver discoveryId) effects g
  = fold_left
      (fun g id => if KnowledgeGate.listening g
                   then KnowledgeGate.onDiscovery discoveryId g id else g)
      (Trace.announced effects) g.
Proof.
  revert g. induction effects as [| e rest IH]; intros g; simpl; [reflexivity |].
  destruct e as [json | []]; simpl; apply IH.
Qed.

Lemma listening_gate_follows (discoveryId : string) (ids : list string) (v a : bool) :
  fold_left
    (fun g id => if KnowledgeGate.listening g
                 then KnowledgeGate.onDiscovery discoveryId g id else g)
    ids (KnowledgeGate.mkGate v a true)
  = KnowledgeGate.mkGate (v || JS.includes ids discoveryId)
      (a || (negb v && JS.includes ids discoveryId)) true.
Proof.
  revert v a. induction ids as [| x rest IH]; intros v a; simpl.
  - now rewrite !orb_false_r, andb_false_r, orb_false_r.
  - unfold KnowledgeGate.onDiscovery. simpl.
    rewrite (String.eqb_sym discoveryId x).
    destruct (String.eqb x discoveryId), v; simpl; rewrite IH; simpl;
      try reflexivity; now destruct a.
Qed.

(** X26. A knowledge gate mounted at any time shows its content exactly
    when its discovery is in the store, after any sequence of calls; it
    animates exactly when the discovery was made after it mounted. *)
Theorem gate_shows_exactly_when_discovered
        (discoveryId : string) (ops : list op) (w : store) :
  let g := KnowledgeGate.after discoveryId ops w in
  KnowledgeGate.visible g
  = JS.includes (discoveries (state (run ops w))) discoveryId
  /\ KnowledgeGate.animate g
     = negb (JS.includes (discoveries (state w)) discoveryId)
       && JS.includes (discoveries (state (run ops w))) discoveryId.
Proof.
  unfold KnowledgeGate.after.
  destruct (run_appends ops w) as [new [suffix [Ht [Hd [Ha _]]]]].
  rewrite (trace_since ops w new Ht), deliver_announced, Ha, Hd, includes_app.
  unfold KnowledgeGate.onMount, hasDiscovery, bind, read, ret. simpl.
  destruct (JS.includes (discoveries (state w)) discoveryId); simpl.
  - clear. induction suffix as [| x rest IH]; simpl; [now split | exact IH].
  - rewrite listening_gate_follows. simpl. now split.
Qed.

Lemma handleAll_app (a b : list Terminal.input) (t : Terminal.terminal) (w : store) :
  Terminal.handleAll (a ++ b) t w
  = Terminal.handleAll b (fst (Terminal.handleAll a t w))
      (snd (Terminal.handleAll a t w)).
Proof.
  revert t w. induction a as [| i a IH]; intros t w; simpl; [reflexivity |].
  unfold bind. destruct (Terminal.handle i t w) as [t' w']. apply IH.
Qed.

Lemma codes_app (a b : list Terminal.input) :
  Terminal.codes (a ++ b) = (Terminal.codes a ++ Terminal.codes b)%list.
Proof.
  induction a as [| i a IH]; simpl; [reflexivity |].
  destruct i; simpl; now rewrite IH.
Qed.

Ltac konami_history pre cs e :=
  first [ exists pre; subst cs;
          repeat match goal with H : Terminal.code e = _ |- _ => rewrite H end;
          rewrite <- ?app_assoc; reflexivity
        | exists cs;
          repeat match goal with H : Terminal.code e = _ |- _ => rewrite H end;
          reflexivity
        | exists (cs ++ [Terminal.code e])%list; now rewrite app_nil_r ].

(** One key press keeps the progress within the code, keeps it at 0
    while the terminal is open, and keeps it equal to the number of leading
    keys of the code that the keys pressed so far end with; and it opens
    the terminal only on the last key of the whole code. *)
Lemma konami_step (e : Terminal.KeyboardEvent) (t : Terminal.terminal)
      (w : store) (cs : list string) :
  (Terminal.konamiProgress t < 10)%nat ->
  (Terminal.isOpen t = true -> Terminal.konamiProgress t = 0%nat) ->
  (exists pre, cs = (pre ++ firstn (Terminal.konamiProgress t) Terminal.KONAMI_CODE)%list) ->
  let t' := fst (Terminal.handleKeydown e t w) in
  (Terminal.konamiProgress t' < 10)%nat
  /\ (Terminal.isOpen t' = true -> Terminal.konamiProgress t' = 0%nat)
  /\ (exists pre, (cs ++ [Terminal.code e])%list
                  = (pre ++ firstn (Terminal.konamiProgress t') Terminal.KONAMI_CODE)%list)
  /\ (Terminal.isOpen t = false -> Terminal.isOpen t' = true ->
      (exists pre, (cs ++ [Terminal.code e])%list = (pre ++ Terminal.KONAMI_CODE)%list)
      /\ In "terminal:opened"
            (discoveries (state (snd (Terminal.handleKeydown e t w))))).
Proof.
  intros Hlt Hopen [pre Hcs]. destruct t as [o p]. simpl in Hlt, Hopen, Hcs.
  unfold Terminal.handleKeydown. simpl Terminal.isOpen. simpl Terminal.konamiProgress.
  destruct o.
  - rewrite (Hopen eq_refl) in *. simpl.
    destruct (String.eqb (Terminal.key e) "Escape"); simpl;
      (split; [lia |]); (split; [intros; reflexivity |]);
      (split; [konami_history pre cs e | intros; discriminate]).
  - simpl. unfold Terminal.codeIs.
    pose proof (addDiscovery_then_present "terminal:opened" "terminal"
                  "Unlocked the terminal" w) as Hrec.
    unfold Terminal.KONAMI_CODE in *.
    do 10 (destruct p as [| p]; [
      cbn [nth_error List.length];
      destruct (String.eqb_spec (Terminal.code e) "ArrowUp");
      destruct (String.eqb_spec (Terminal.code e) "ArrowDown");
      destruct (String.eqb_spec (Terminal.code e) "ArrowLeft");
      destruct (String.eqb_spec (Terminal.code e) "ArrowRight");
      destruct (String.eqb_spec (Terminal.code e) "KeyB");
      destruct (String.eqb_spec (Terminal.code e) "KeyA");
      try congruence; simpl;
      unfold Terminal.openTerminal, Components.openTerminal, bind, ret;
      try (destruct (addDiscovery "terminal:opened" "terminal"
                       "Unlocked the terminal" w)); simpl in *;
      (split; [lia |]); (split; [intros; first [reflexivity | discriminate] |]);
      (split; [konami_history pre cs e |]);
      first [ intros _ Habs; discriminate Habs
            | intros _ _; split; [konami_history pre cs e | exact Hrec] ]
    |]).
    lia.
Qed.

Lemma konami_invariant (inputs : list Terminal.input) (w : store) :
  let t := fst (Terminal.handleAll inputs Terminal.initial w) in
  (Terminal.konamiProgress t < 10)%nat
  /\ (Terminal.isOpen t = true -> Terminal.konamiProgress t = 0%nat)
  /\ exists pre, Terminal.codes inputs
                 = (pre ++ firstn (Terminal.konamiProgress t) Terminal.KONAMI_CODE)%list.
Proof.
  induction inputs as [| i inputs IH] using rev_ind.
  - simpl. repeat split; [lia | exists []; reflexivity].
  - simpl in IH. destruct IH as [Hlt [Hopen Hcs]].
    rewrite handleAll_app, codes_app. simpl Terminal.handleAll. unfold bind.
    destruct (Terminal.handle i _ _) as [t' w'] eqn:E. simpl.
    destruct i as [e |].
    + simpl in E.
      destruct (konami_step e _ (snd (Terminal.handleAll inputs Terminal.initial w))
                  (Terminal.codes inputs) Hlt Hopen Hcs) as [H1 [H2 [H3 _]]].
      rewrite E in H1, H2, H3. simpl in H1, H2, H3. now repeat split.
    + simpl in E. inversion E. subst t' w'. simpl.
      rewrite app_nil_r. repeat split; [assumption | discriminate | assumption].
Qed.

(** X27. The Konami tracking stays inside the code and opens the terminal
    only on the code: after any key presses and closings the progress is
    below 10, and a key press that opens the closed terminal is the last of
    ten presses whose codes are exactly the Konami code, and it records
    ["terminal:opened"]. *)
Theorem konami_opens_only_on_the_code
        (history : list Terminal.input) (e : Terminal.KeyboardEvent) (w : store) :
  let before := fst (Terminal.handleAll history Terminal.initial w) in
  let after := Terminal.handleAll (history ++ [Terminal.Keydown e]) Terminal.initial w in
  (Terminal.konamiProgress before < 10)%nat
  /\ (Terminal.isOpen before = false -> Terminal.isOpen (fst after) = true ->
      (exists earlier,
          Terminal.codes (history ++ [Terminal.Keydown e])
          = (earlier ++ Terminal.KONAMI_CODE)%list)
      /\ In "terminal:opened" (discoveries (state (snd after)))).
Proof.
  intros before after.
  destruct (konami_invariant history w) as [Hlt [Hopen Hcs]].
  split; [exact Hlt |].
  subst after. rewrite handleAll_app, codes_app. simpl Terminal.handleAll.
  unfold bind. simpl Terminal.handle.
  destruct (Terminal.handleKeydown e _ _) as [t' w'] eqn:E. simpl.
  intros Hclosed Hnow.
  destruct (konami_step e _ (snd (Terminal.handleAll history Terminal.initial w))
              (Terminal.codes history) Hlt Hopen Hcs) as [_ [_ [_ H4]]].
  rewrite E in H4. simpl in H4. now apply H4.
Qed.

(** X28. Typed from a fresh, closed terminal, the ten keys of the Konami
    code open it, reset the progress and record ["terminal:opened"]. With
    one more ArrowUp in front the same ten keys leave it closed: the third
    ArrowUp restarts the tracking at one key, and the ArrowDown that follows
    then fails. *)
Theorem konami_code_opens_terminal (keys : list Terminal.KeyboardEvent) (w : store) :
  (map Terminal.code keys = Terminal.KONAMI_CODE ->
   fst (Terminal.handleAll (map Terminal.Keydown keys) Terminal.initial w)
   = Terminal.mkTerminal true 0
   /\ In "terminal:opened"
         (discoveries
            (state (snd (Terminal.handleAll (map Terminal.Keydown keys)
                           Terminal.initial w)))))
  /\ (map Terminal.code keys = "ArrowUp" :: Terminal.KONAMI_CODE ->
      Terminal.handleAll (map Terminal.Keydown keys) Terminal.initial w
      = (Terminal.mkTerminal false 0, w)).
Proof.
  split; intros H.
  - do 10 (destruct keys as [| [? ?] keys]; [discriminate H |]).
    destruct keys; [| discriminate H].
    simpl in H. inversion H. subst.
    unfold Terminal.initial. simpl Terminal.handleAll.
    unfold bind, ret, Terminal.handle, Terminal.handleKeydown, Terminal.codeIs. simpl.
    unfold Terminal.openTerminal, Components.openTerminal, bind, ret.
    rewrite addDiscovery_eq.
    destruct (JS.includes (discoveries (state w)) "terminal:opened") eqn:E; simpl.
    + split; [reflexivity | now apply includes_In].
    + split; [reflexivity | apply includes_In, includes_push].
  - do 11 (destruct keys as [| [? ?] keys]; [discriminate H |]).
    destruct keys; [| discriminate H].
    simpl in H. inversion H. subst. reflexivity.
Qed.

End ComponentSteps.

(** ** Reset and session time *)

Section SessionSteps.

Import Store.

Variable belowOneCoerced : value -> bool.

Lemma run_sessionStart (ops : list op) (w : store) :
  sessionStart (state (run ops w)) = sessionStart (state w).
Proof.
  revert w. induction ops as [| o ops IH]; intros w; simpl; [reflexivity |].
  fold (run ops (exec o w)). rewrite IH. apply exec_frame.
Qed.

(** X29. [resetState] wipes the stored progress too. Whatever the store
    held, it replaces the state by the defaults and hands them to the
    storage as its one effect; provided that write succeeds, the stored item
    is those defaults, and the [init] that reads it starts again as visit
    number 1 and with no discovery. *)
Theorem resetState_wipes_storage
        (atReset atLoad atVisit : clock) (before : option item) (w : store) :
  let wiped := snd (resetState atReset w) in
  let defaults := createDefaultState atReset in
  state wiped = defaults
  /\ trace wiped = (trace w ++ [Saved (encode defaults)])%list
  /\ Trace.storage before (trace wiped) = Some (Parsed (encode defaults))
  /\ exists again,
       init belowOneCoerced atLoad atVisit (Some (Parsed (encode defaults)))
       = Live again
       /\ visitCount (state again) = 1
       /\ discoveries (state again) = []
       /\ firstVisitDate (state again) = iso atReset
       /\ trace again = [Saved (encode (state again)); Emitted (Events.visit 1 true)].
Proof.
  unfold resetState, bind, write, save, read, perform, ret. simpl.
  split; [reflexivity |].
  split; [reflexivity |].
  split; [unfold JS.push; now rewrite storage_app |].
  eexists. split; [reflexivity |]. repeat split.
Qed.

(** X30. The session time counts from the last [init]: in a store that
    [init] started, after any sequence of calls, [getSessionDuration] is the
    time elapsed since the clock reading of that [init], whatever session
    start the stored record carried. *)
Theorem session_duration_counts_from_init
        (atLoad atVisit : clock) (stored : option item) (w : store)
        (ops : list op) (now : Z) :
  init belowOneCoerced atLoad atVisit stored = Live w ->
  fst (StoreQueries.getSessionDuration now (run ops w)) = now - ms atVisit.
Proof.
  intros Hinit. unfold StoreQueries.getSessionDuration, bind, read, ret. simpl.
  rewrite run_sessionStart. unfold init in Hinit.
  destruct (load belowOneCoerced atLoad stored) as [s |]; [| discriminate].
  inversion Hinit. reflexivity.
Qed.

End SessionSteps.

(** ** Concrete runs *)

Section Walkthroughs.

Import Store.

Import Samples.

Lemma load_returns_current_version_witness :
  let raw := JObj [("version", JNum 0); ("visitCount", JNum 4)] in
  load (fun _ => false) noon (Some (Parsed raw))
  = Typed (mkState 1 [] [] [] [] 4 (iso noon) (iso noon) (ms noon) 0 false 0)
  /\ version (mkState 1 [] [] [] [] 4 (iso noon) (iso noon) (ms noon) 0 false 0)
     = SCHEMA_VERSION.
Proof.
  intros raw. split; [reflexivity |].
  apply (load_returns_current_version (fun _ => false) noon (Some (Parsed raw))).
  reflexivity.
Defined.

Lemma load_stale_record_drops_new_fields_witness :
  let raw := JObj [("discoveries", JArr [JStr "star:first-click"]);
                   ("constellations", JArr [JStr "orion"]);
                   ("totalClickedStars", JNum 9)] in
  let s := mkState 1 ["star:first-click"] [] [] [] 0 (iso noon) (iso noon)
             (ms noon) 0 false 0 in
  load (fun _ => false) noon (Some (Parsed raw)) = Typed s
  /\ constellations s = [] /\ totalClickedStars s = 0.
Proof.
  intros raw s. split; [reflexivity |].
  destruct (load_stale_record_drops_new_fields (fun _ => false) noon raw s)
    as [Hc [_ [_ [_ [_ [_ [_ Ht]]]]]]].
  - discriminate.
  - reflexivity.
  - now split.
Defined.

Lemma init_first_visit_witness :
  exists w, init (fun _ => false) noon later (Some Unparsable) = Live w
            /\ visitCount (state w) = 1.
Proof.
  eexists. split.
  - apply (init_first_visit (fun _ => false) noon later (Some Unparsable)).
    right. left. reflexivity.
  - reflexivity.
Defined.

Lemma init_resumes_session_witness :
  exists w w',
    init (fun _ => false) noon noon None = Live w
    /\ init (fun _ => false) later later
         (Trace.storage None (trace (run [ClickStar; ToggleAudio] w))) = Live w'
    /\ discoveries (state w') = ["star:first-click"]
    /\ visitCount (state w') = 2.
Proof.
  eexists. eexists. split; [reflexivity |].
  split.
  - refine (proj1 (init_resumes_session (fun _ => false) noon noon later later
                     None _ [ClickStar; ToggleAudio] _ _ _ _)).
    + reflexivity.
    + unfold Counter.exactFor. simpl. lia.
    + unfold Counter.exactFor. simpl. lia.
    + unfold Counter.exactFor. simpl. lia.
  - split; reflexivity.
Defined.

Lemma session_duration_counts_from_init_witness :
  exists w,
    init (fun _ => false) noon noon None = Live w
    /\ fst (StoreQueries.getSessionDuration (ms noon + 5000) (run [ClickStar] w)) = 5000.
Proof.
  eexists. split; [reflexivity |].
  rewrite (session_duration_counts_from_init (fun _ => false) noon noon None _
             [ClickStar] (ms noon + 5000) eq_refl).
  reflexivity.
Defined.

Lemma unlocked_stays_unlocked_witness :
  let w := mkStore (setDiscoveries ["star:first-click"] (createDefaultState noon)) [] in
  KnowledgeGraph.isUnlocked KnowledgeGraph.graphData "constellation:orion"
    (discoveries (state (run [ToggleAudio; AddTerminalCommand "help" ""] w))) = true.
Proof.
  intros w. apply unlocked_stays_unlocked. reflexivity.
Defined.

Lemma hint_stays_until_discovered_witness :
  let w := mkStore (setDiscoveries ["A"] (createDefaultState noon)) [] in
  In Spec.nodeC
     (KnowledgeGraph.getHintableNodes Spec.abcGraph
        (discoveries (state (run [AddDiscovery "B" "x" "y"; ToggleAudio] w)))).
Proof.
  intros w. apply hint_stays_until_discovered.
  - simpl. tauto.
  - simpl. intros [H | [H | []]]; discriminate H.
Defined.

Lemma locked_iff_unlocker_missing_witness :
  KnowledgeGraph.isUnlocked Spec.abcGraph "C" ["A"] = false.
Proof.
  apply (proj2 (locked_iff_unlocker_missing Spec.abcGraph Spec.nodeC ["A"]
                  ltac:(repeat constructor; simpl; intuition discriminate)
                  ltac:(simpl; tauto))).
  exists "B". split.
  - simpl. intros [H | []]. discriminate H.
  - simpl. tauto.
Defined.

Lemma discovered_and_hintable_are_disjoint_witness :
  In Spec.nodeA (KnowledgeGraph.getDiscoveredNodes Spec.abcGraph ["A"])
  \/ In Spec.nodeA (KnowledgeGraph.getHintableNodes Spec.abcGraph ["A"]).
Proof.
  refine (proj2 (proj2 (proj2 (discovered_and_hintable_are_disjoint
                                 Spec.abcGraph ["A"] Spec.nodeA))) _ _).
  - simpl. tauto.
  - reflexivity.
Defined.

Lemma konami_opens_only_on_the_code_witness :
  let w := mkStore (createDefaultState noon) [] in
  let history := map arrow ["KeyA"; "ArrowUp"; "ArrowUp"; "ArrowDown"; "ArrowDown";
                            "ArrowLeft"; "ArrowRight"; "ArrowLeft"; "ArrowRight";
                            "KeyB"] in
  In "terminal:opened"
     (discoveries
        (state (snd (Terminal.handleAll
                       (history ++ [Terminal.Keydown (Terminal.mkKey "a" "KeyA")])
                       Terminal.initial w)))).
Proof.
  intros w history.
  refine (proj2 (proj2 (konami_opens_only_on_the_code history
                          (Terminal.mkKey "a" "KeyA") w) _ _)); reflexivity.
Defined.

Lemma konami_code_opens_terminal_witness :
  let w := mkStore (createDefaultState noon) [] in
  let keys := map (Terminal.mkKey "") Terminal.KONAMI_CODE in
  fst (Terminal.handleAll (map Terminal.Keydown keys) Terminal.initial w)
  = Terminal.mkTerminal true 0
  /\ Terminal.handleAll
       (map Terminal.Keydown (Terminal.mkKey "" "ArrowUp" :: keys))
       Terminal.initial w
     = (Terminal.mkTerminal false 0, w).
Proof.
  intros w keys. split.
  - apply (proj1 (konami_code_opens_terminal keys w)). reflexivity.
  - apply (proj2 (konami_code_opens_terminal
                    (Terminal.mkKey "" "ArrowUp" :: keys) w)). reflexivity.
Defined.

End Walkthroughs.
